(** * ReactFormVisitor: schema-to-form visitor of ui-concerto

    A shallow embedding of [packages/ui-concerto/src/reactformvisitor.js].
    The visitor walks a Concerto schema (classes, enumerations, fields and
    relationships) and builds a tree of form elements, threading one
    mutable [parameters] object through the whole walk.  The embedding
    passes that object explicitly: a visit method is a function from the
    parameters at entry to an outcome that carries the parameters at exit,
    also when the method throws. *)

From Stdlib Require Import ZArith Ascii String DecimalString.
From stdpp Require Import base option list strings gmap.

Set Warnings "-register-all".
Local Open Scope string_scope.

(** ** JavaScript values *)

(** The document under edit is JSON; [undefined] is the [None] of
    [JsValue]. *)
Inductive Json : Type :=
| JNull
| JBool (b : bool)
| JNumber (z : Z)
| JString (s : string)
| JArray (items : list Json)
| JObject (members : list (string * Json)).

Definition JsValue : Type := option Json.

(** Truthiness, as [if (v)], [!v] and [v && e] test it. *)
Definition truthy (v : JsValue) : bool :=
  match v with
  | None | Some JNull => false
  | Some (JBool b) => b
  | Some (JNumber z) => negb (Z.eqb z 0)
  | Some (JString s) => negb (String.eqb s "")
  | Some (JArray _) | Some (JObject _) => true
  end.

(** A string that may be [undefined] or [null] is truthy when it is a
    non-empty string. *)
Definition truthyString (s : option string) : option string :=
  match s with
  | Some k => if String.eqb k "" then None else Some k
  | None => None
  end.

(** [`${index}`] for an array index. *)
Definition numberToString (n : nat) : string :=
  NilZero.string_of_uint (Nat.to_uint n).

Definition lowerAscii (a : ascii) : ascii :=
  let n := nat_of_ascii a in
  if (65 <=? n)%nat && (n <=? 90)%nat then ascii_of_nat (n + 32) else a.

(** [String.prototype.toLowerCase] on the ASCII letters. *)
Fixpoint toLowerCase (s : string) : string :=
  match s with
  | EmptyString => EmptyString
  | String a rest => String (lowerAscii a) (toLowerCase rest)
  end.

(** ** The schema, as concerto-core exposes it *)

Record Decorator : Type := {
  decoratorName : string;
  getArguments : list Json;
}.

(** What the visitor reads of a [Property] ([Field]s and
    [RelationshipDeclaration]s alike). *)
Module Property.
Record t : Type := {
  getName : string;
  getFullyQualifiedName : string;
  getNamespace : string;
  getType : string;
  getFullyQualifiedTypeName : string;
  isArray : bool;
  isOptional : bool;
  isPrimitive : bool;
  getDecorators : list Decorator;
}.

Definition getDecorator (p : t) (name : string) : option Decorator :=
  List.find (fun d => String.eqb (decoratorName d) name) (getDecorators p).
End Property.

(** The members of a class declaration are fields or relationships. *)
Inductive Member : Type :=
| Field (f : Property.t)
| RelationshipDeclaration (r : Property.t).

Definition memberProperty (m : Member) : Property.t :=
  match m with Field p | RelationshipDeclaration p => p end.

Module EnumDeclaration.
Record t : Type := {
  getName : string;
  getFullyQualifiedName : string;
  (** the names of the enum values, [getProperties().map(p => p.getName())] *)
  getProperties : list string;
}.
End EnumDeclaration.

Module ClassDeclaration.
Record t : Type := {
  getName : string;
  getFullyQualifiedName : string;
  isAbstract : bool;
  getSuperType : option string;
  getIdentifierFieldName : option string;
  getProperties : list Member;
}.

Definition getProperty (c : t) (name : string) : option Member :=
  List.find (fun m => String.eqb (Property.getName (memberProperty m)) name)
            (getProperties c).
End ClassDeclaration.

(** What [modelManager.getType] hands back. *)
Inductive Declaration : Type :=
| EnumDecl (e : EnumDeclaration.t)
| ClassDecl (c : ClassDeclaration.t).

(** A value that is none of the four classes [visit] knows. *)
Inductive Foreign : Type :=
| ForeignValue (v : JsValue)
| ForeignObject (inspected : string).

(** The argument of [visit]: one constructor per [instanceof] test, and
    one for everything else. *)
Inductive Thing : Type :=
| AnEnumDeclaration (e : EnumDeclaration.t)
| AClassDeclaration (c : ClassDeclaration.t)
| AField (f : Property.t)
| ARelationshipDeclaration (r : Property.t)
| Unrecognised (v : Foreign).

Definition thingOfMember (m : Member) : Thing :=
  match m with
  | Field f => AField f
  | RelationshipDeclaration r => ARelationshipDeclaration r
  end.

Definition thingOfDeclaration (d : Declaration) : Thing :=
  match d with
  | EnumDecl e => AnEnumDeclaration e
  | ClassDecl c => AClassDeclaration c
  end.

(** ** The traversal context ([parameters]) *)

Inductive Segment : Type :=
| Name (s : string)
| Index (n : nat).

Inductive Callback : Type := Handler (name : string).
Inductive RelationshipProvider : Type := Provider (name : string).

(** The [Writer] of concerto-core, by its state. The constructor of the
    class sets [beforeBuffer] and [buffer] to the empty string and
    [linesWritten] to zero; a writer the host supplies has whatever state the
    host left in it. *)
Record Writer : Type := {
  beforeBuffer : string;
  buffer : string;
  linesWritten : nat;
}.

(** [new Writer()]. *)
Definition NewWriter : Writer :=
  {| beforeBuffer := ""; buffer := ""; linesWritten := 0 |}.

Record SelectorEntry : Type := {
  entryValue : string;
  entryText : string;
}.

Record TraversalContext : Type := {
  json : JsValue;
  stack : list Segment;
  skipLabel : bool;
  disabled : bool;
  textOnly : bool;
  hideIdentifiers : bool;
  hiddenFields : option (list string);
  checkboxStyle : option string;
  customSelectors : option (gmap string (list SelectorEntry));
  fileWriter : option Writer;
  addElement : Callback;
  removeElement : Callback;
  onFieldValueChange : Callback;
  relationshipProvider : option RelationshipProvider;
  modelManager : gmap string Declaration;
  includeOptionalFields : bool;
  includeSampleData : bool;
}.

Definition setStack (s : list Segment) (p : TraversalContext) : TraversalContext :=
  {| json := json p; stack := s; skipLabel := skipLabel p;
     disabled := disabled p; textOnly := textOnly p;
     hideIdentifiers := hideIdentifiers p; hiddenFields := hiddenFields p;
     checkboxStyle := checkboxStyle p; customSelectors := customSelectors p;
     fileWriter := fileWriter p; addElement := addElement p;
     removeElement := removeElement p;
     onFieldValueChange := onFieldValueChange p;
     relationshipProvider := relationshipProvider p;
     modelManager := modelManager p;
     includeOptionalFields := includeOptionalFields p;
     includeSampleData := includeSampleData p |}.

Definition setSkipLabel (b : bool) (p : TraversalContext) : TraversalContext :=
  {| json := json p; stack := stack p; skipLabel := b;
     disabled := disabled p; textOnly := textOnly p;
     hideIdentifiers := hideIdentifiers p; hiddenFields := hiddenFields p;
     checkboxStyle := checkboxStyle p; customSelectors := customSelectors p;
     fileWriter := fileWriter p; addElement := addElement p;
     removeElement := removeElement p;
     onFieldValueChange := onFieldValueChange p;
     relationshipProvider := relationshipProvider p;
     modelManager := modelManager p;
     includeOptionalFields := includeOptionalFields p;
     includeSampleData := includeSampleData p |}.

Definition setHiddenFields (h : option (list string)) (p : TraversalContext)
  : TraversalContext :=
  {| json := json p; stack := stack p; skipLabel := skipLabel p;
     disabled := disabled p; textOnly := textOnly p;
     hideIdentifiers := hideIdentifiers p; hiddenFields := h;
     checkboxStyle := checkboxStyle p; customSelectors := customSelectors p;
     fileWriter := fileWriter p; addElement := addElement p;
     removeElement := removeElement p;
     onFieldValueChange := onFieldValueChange p;
     relationshipProvider := relationshipProvider p;
     modelManager := modelManager p;
     includeOptionalFields := includeOptionalFields p;
     includeSampleData := includeSampleData p |}.

Definition setFileWriter (w : option Writer) (p : TraversalContext)
  : TraversalContext :=
  {| json := json p; stack := stack p; skipLabel := skipLabel p;
     disabled := disabled p; textOnly := textOnly p;
     hideIdentifiers := hideIdentifiers p; hiddenFields := hiddenFields p;
     checkboxStyle := checkboxStyle p; customSelectors := customSelectors p;
     fileWriter := w; addElement := addElement p;
     removeElement := removeElement p;
     onFieldValueChange := onFieldValueChange p;
     relationshipProvider := relationshipProvider p;
     modelManager := modelManager p;
     includeOptionalFields := includeOptionalFields p;
     includeSampleData := includeSampleData p |}.

Definition setJson (document : JsValue) (p : TraversalContext)
  : TraversalContext :=
  {| json := document; stack := stack p; skipLabel := skipLabel p;
     disabled := disabled p; textOnly := textOnly p;
     hideIdentifiers := hideIdentifiers p; hiddenFields := hiddenFields p;
     checkboxStyle := checkboxStyle p; customSelectors := customSelectors p;
     fileWriter := fileWriter p; addElement := addElement p;
     removeElement := removeElement p;
     onFieldValueChange := onFieldValueChange p;
     relationshipProvider := relationshipProvider p;
     modelManager := modelManager p;
     includeOptionalFields := includeOptionalFields p;
     includeSampleData := includeSampleData p |}.

Definition setHideIdentifiers (b : bool) (p : TraversalContext)
  : TraversalContext :=
  {| json := json p; stack := stack p; skipLabel := skipLabel p;
     disabled := disabled p; textOnly := textOnly p;
     hideIdentifiers := b; hiddenFields := hiddenFields p;
     checkboxStyle := checkboxStyle p; customSelectors := customSelectors p;
     fileWriter := fileWriter p; addElement := addElement p;
     removeElement := removeElement p;
     onFieldValueChange := onFieldValueChange p;
     relationshipProvider := relationshipProvider p;
     modelManager := modelManager p;
     includeOptionalFields := includeOptionalFields p;
     includeSampleData := includeSampleData p |}.

Definition setCustomSelectors
  (registry : option (gmap string (list SelectorEntry)))
  (p : TraversalContext) : TraversalContext :=
  {| json := json p; stack := stack p; skipLabel := skipLabel p;
     disabled := disabled p; textOnly := textOnly p;
     hideIdentifiers := hideIdentifiers p; hiddenFields := hiddenFields p;
     checkboxStyle := checkboxStyle p; customSelectors := registry;
     fileWriter := fileWriter p; addElement := addElement p;
     removeElement := removeElement p;
     onFieldValueChange := onFieldValueChange p;
     relationshipProvider := relationshipProvider p;
     modelManager := modelManager p;
     includeOptionalFields := includeOptionalFields p;
     includeSampleData := includeSampleData p |}.

(** ** The element tree *)

(** [commonProps] of [visitField] and [visitRelationship]; a widget that
    spreads them and overrides [id] and [value] carries the overridden
    record. *)
Record CommonProps : Type := {
  propsSkipLabel : bool;
  propsId : string;
  propsField : Member;
  propsValue : JsValue;
  propsType : string;
  propsRequired : bool;
  propsReadOnly : bool;
  propsTextOnly : bool;
  propsAddElement : Callback;
  propsRemoveElement : Callback;
  propsOnFieldValueChange : Callback;
  propsRelationshipProvider : option RelationshipProvider;
}.

Definition withIdValue (props : CommonProps) (id : string) (value : JsValue)
  : CommonProps :=
  {| propsSkipLabel := propsSkipLabel props; propsId := id;
     propsField := propsField props; propsValue := value;
     propsType := propsType props; propsRequired := propsRequired props;
     propsReadOnly := propsReadOnly props;
     propsTextOnly := propsTextOnly props;
     propsAddElement := propsAddElement props;
     propsRemoveElement := propsRemoveElement props;
     propsOnFieldValueChange := propsOnFieldValueChange props;
     propsRelationshipProvider := propsRelationshipProvider props |}.

Record SelectOption : Type := {
  optionKey : string;
  optionValue : string;
  optionText : string;
}.

Record DropdownProps : Type := {
  dropdownId : string;
  dropdownKey : string;
  dropdownValue : JsValue;
  dropdownDisplayText : JsValue;
  dropdownField : option EnumDeclaration.t;
  dropdownReadOnly : bool;
  dropdownTextOnly : bool;
  dropdownOnFieldValueChange : Callback;
  dropdownOptions : list SelectOption;
}.

Inductive Resource : Type :=
  MkResource (namespace type identifier : string).

(** The [addElement] prop of an array container is a closure over the
    context's own [addElement]; it is kept as data and run by
    [invokeAddElement]. *)
Inductive AddElementClosure : Type :=
| AddDefaultValue (handler : Callback) (field : Property.t)
| AddResourceURI (handler : Callback) (newResource : Resource).

Inductive Element : Type :=
| Null
| ConcertoInput (key : string) (props : CommonProps)
| ConcertoCheckbox (key : string) (props : CommonProps) (toggle : option string)
| ConcertoDateTime (key : string) (props : CommonProps)
| ConcertoDropdown (props : DropdownProps)
| ConcertoRelationship (key : option string) (props : CommonProps)
| ConcertoArray (key : string) (props : CommonProps)
    (addElementProp : AddElementClosure)
    (** [None]: [value && ...] stopped at the falsy [value] *)
    (children : option (list Element))
| ConcertoArrayElement (key : string) (props : CommonProps) (index : nat)
    (child : Element)
| ConcertoLabel (skip : bool) (name : JsValue) (key : JsValue)
| FormField (required : bool) (key : JsValue) (label : Element)
    (child : Element)
| MonetaryAmount (key : string) (first second : Element)
| Duration (key : string) (first second : Element)
| Div (key : string) (child : Element)
| Elements (items : list Element).

(** ** Outcomes and the visit monad *)

Inductive Error : Type :=
| UnrecognisedType (thing : Foreign)
| CustomSelectorKeyNotFound (customSelectorKey : string)
| TypeError (message : string)
| TypeNotFound (fullyQualifiedName : string)
| LibraryError (message : string).

(** A call returns, or throws, and in both cases leaves the parameters
    as it mutated them; [OutOfFuel] is the embedding's own outcome for a
    recursion cut short. *)
Inductive Outcome (A : Type) : Type :=
| Returned (result : A) (parameters : TraversalContext)
| Threw (error : Error) (parameters : TraversalContext)
| OutOfFuel.

Arguments Returned {A} result parameters.
Arguments Threw {A} error parameters.
Arguments OutOfFuel {A}.

Definition Visit (A : Type) : Type := TraversalContext -> Outcome A.

#[global] Instance Visit_ret : MRet Visit :=
  fun A result parameters => Returned result parameters.

#[global] Instance Visit_bind : MBind Visit :=
  fun A B k m parameters =>
    match m parameters with
    | Returned result parameters' => k result parameters'
    | Threw error parameters' => Threw error parameters'
    | OutOfFuel => OutOfFuel
    end.

Definition getParameters : Visit TraversalContext :=
  fun parameters => Returned parameters parameters.

Definition modify (f : TraversalContext -> TraversalContext) : Visit unit :=
  fun parameters => Returned tt (f parameters).

Definition throw {A : Type} (error : Error) : Visit A :=
  fun parameters => Threw error parameters.

(** [stack.push(x)] and [stack.pop()] on the array held in
    [parameters.stack]; the top of the stack is the end of the list. *)
Definition push (segment : Segment) : Visit unit :=
  modify (fun parameters => setStack ((stack parameters ++ [segment])%list) parameters).

Definition pop : Visit unit :=
  modify (fun parameters => setStack (removelast (stack parameters)) parameters).

(** [array.map((element, index) => ...)] with an effectful callback, run
    in index order. *)
Fixpoint mapWithIndex {A B : Type} (f : A -> nat -> Visit B) (index : nat)
  (l : list A) : Visit (list B) :=
  match l with
  | [] => mret []
  | element :: rest =>
      r ← f element index;
      rs ← mapWithIndex f (S index) rest;
      mret (r :: rs)
  end.

(** The parameters an outcome leaves behind. *)
Definition finalParameters {A : Type} (o : Outcome A) : option TraversalContext :=
  match o with
  | Returned _ parameters | Threw _ parameters => Some parameters
  | OutOfFuel => None
  end.

Definition terminates {A : Type} (o : Outcome A) : Prop := o <> OutOfFuel.

(** ** Collaborators *)

(** The helpers imported from [./utilities], whose file is not part of
    the sources at hand: the visitor is verified for every implementation
    of them. *)
Class Utilities : Type := {
  isHidden : Property.t -> bool;
  getDefaultValue : Property.t -> TraversalContext -> JsValue;
  toFieldType : string -> string;
  pathToString : list Segment -> string;
  getCustomSelectDecoratorKey : Property.t -> option string;
  (** [inl message] stands for [throw new Error(message)] *)
  findConcreteSubclass :
    gmap string Declaration -> Declaration -> string + Declaration;
}.

(** lodash's [get] and the factory of concerto-core. *)
Class Libraries : Type := {
  get : JsValue -> string -> JsValue;
  newResource :
    gmap string Declaration -> string -> string -> string -> bool -> bool ->
    string + Resource;
  toURI : Resource -> string;
}.

(** Modelled from the spec: [hideProperty] of [./utilities], which is not
    among the sources.  The spec has a field skipped when it is hidden
    "by the accumulated hidden-fields set", the set of qualified names
    that [visitClassDeclaration] pushes to [parameters.hiddenFields]. *)
Definition hideProperty (property : Property.t) (parameters : TraversalContext)
  : bool :=
  match hiddenFields parameters with
  | Some names =>
      existsb (String.eqb (Property.getFullyQualifiedName property)) names
  | None => false
  end.

(** What an [addElement] closure passes to the context's [addElement]
    when the user clicks: the handler, the event, the id and the value of
    the new element.  [getDefaultValue] reads the parameters as they are
    at the time of the click. *)
Definition invokeAddElement `{Utilities} `{Libraries}
  (closure : AddElementClosure) (parameters : TraversalContext)
  (event id : string) : Callback * string * string * JsValue :=
  match closure with
  | AddDefaultValue handler field =>
      (handler, event, id, getDefaultValue field parameters)
  | AddResourceURI handler resource =>
      (handler, event, id, Some (JString (toURI resource)))
  end.

(** ** The visitor *)

Section Visitor.
Context `{Utilities} `{Libraries}.

(** [thing.accept(this, parameters)], which concerto-core defines as
    [visitor.visit(thing, parameters)]: the recursive call. *)
Variable accept : Thing -> Visit Element.

Definition acceptMember (props : list Member) (i : nat) : Visit Element :=
  match props !! i with
  | Some property => accept (thingOfMember property)
  | None => throw (TypeError "Cannot read properties of undefined (reading 'accept')")
  end.

Definition visitMonetaryAmount (declaration : ClassDeclaration.t)
  : Visit Element :=
  let props := ClassDeclaration.getProperties declaration in
  modify (setSkipLabel true);;
  let key := toLowerCase (ClassDeclaration.getName declaration) in
  first ← acceptMember props 0;
  second ← acceptMember props 1;
  modify (setSkipLabel false);;
  mret (MonetaryAmount key first second).

Definition visitDuration (declaration : ClassDeclaration.t) : Visit Element :=
  let props := ClassDeclaration.getProperties declaration in
  modify (setSkipLabel true);;
  let key := toLowerCase (ClassDeclaration.getName declaration) in
  first ← acceptMember props 0;
  second ← acceptMember props 1;
  modify (setSkipLabel false);;
  mret (Duration key first second).

Definition visitAccordParty (declaration : ClassDeclaration.t)
  : Visit Element :=
  let props := ClassDeclaration.getProperties declaration in
  modify (setSkipLabel true);;
  let key := toLowerCase (ClassDeclaration.getName declaration) in
  child ← acceptMember props 0;
  modify (setSkipLabel false);;
  mret (Div key child).

Definition monetaryAmountNames : list string :=
  ["org.accordproject.money.MonetaryAmount";
   "org.accordproject.money.DigitalMonetaryAmount"].

Definition durationNames : list string :=
  ["org.accordproject.time.Duration"; "org.accordproject.time.Period"].

Definition accordPartyNames : list string :=
  ["org.accordproject.cicero.contract.AccordParty"].

(** [array.includes(name)] *)
Definition includes (names : list string) (name : string) : bool :=
  existsb (String.eqb name) names.

(** Lines 96-107: the identifier field of the class joins
    [parameters.hiddenFields]. *)
Definition hideIdentifier (classDeclaration : ClassDeclaration.t)
  : Visit unit :=
  parameters ← getParameters;
  if hideIdentifiers parameters then
    (if hiddenFields parameters is None
     then modify (setHiddenFields (Some []))
     else mret tt);;
    match truthyString (ClassDeclaration.getIdentifierFieldName classDeclaration) with
    | Some idFieldName =>
        match ClassDeclaration.getProperty classDeclaration idFieldName with
        | Some idField =>
            modify (fun p =>
              setHiddenFields
                (Some ((default [] (hiddenFields p)
                        ++ [Property.getFullyQualifiedName (memberProperty idField)])%list))
                p)
        | None =>
            throw (TypeError "Cannot read properties of undefined (reading 'getFullyQualifiedName')")
        end
    | None => mret tt
    end
  else mret tt.

Definition visitClassDeclaration (classDeclaration : ClassDeclaration.t)
  : Visit Element :=
  hideIdentifier classDeclaration;;
  if ClassDeclaration.isAbstract classDeclaration then mret Null
  else
    let name := ClassDeclaration.getFullyQualifiedName classDeclaration in
    if includes monetaryAmountNames name
    then visitMonetaryAmount classDeclaration
    else if includes durationNames name
    then visitDuration classDeclaration
    else if includes accordPartyNames name
    then visitAccordParty classDeclaration
    else
      components ←
        mapWithIndex (fun p _ => accept (thingOfMember p)) 0
          (ClassDeclaration.getProperties classDeclaration);
      mret (Elements components).

Definition visitEnumDeclaration (enumDeclaration : EnumDeclaration.t)
  : Visit Element :=
  parameters ← getParameters;
  let key := pathToString (stack parameters) in
  let value := get (json parameters) key in
  mret (ConcertoDropdown
    {| dropdownId := key;
       dropdownKey := "enum-" +:+ key;
       dropdownValue := value;
       dropdownDisplayText := value;
       dropdownField := Some enumDeclaration;
       dropdownReadOnly := disabled parameters;
       dropdownTextOnly := textOnly parameters;
       dropdownOnFieldValueChange := onFieldValueChange parameters;
       dropdownOptions :=
         map (fun name =>
                {| optionKey := "option-" +:+ name;
                   optionValue := name;
                   optionText := name |})
             (EnumDeclaration.getProperties enumDeclaration) |}).

(** The names every plain object inherits from [Object.prototype]. *)
Definition objectPrototypeMembers : list string :=
  [ "constructor"; "__defineGetter__"; "__defineSetter__"; "hasOwnProperty";
    "__lookupGetter__"; "__lookupSetter__"; "isPrototypeOf";
    "propertyIsEnumerable"; "toString"; "valueOf"; "__proto__";
    "toLocaleString" ].

(** What a property read on the selector registry finds: an option list the
    host registered, a member of [Object.prototype] (a function, or the
    prototype itself for [__proto__]), or [undefined]. *)
Inductive PropertyRead : Type :=
| OwnProperty (options : list SelectorEntry)
| InheritedProperty
| NoProperty.

(** The option lists the host registered, with the [= {}] default of the
    destructuring. *)
Definition ownSelectors (parameters : TraversalContext)
  : gmap string (list SelectorEntry) :=
  default ∅ (customSelectors parameters).

(** [customSelectors[customSelectorKey]]: the registry is a plain object, so
    the read falls back on the prototype for a key without an entry of its
    own. *)
Definition inherited (key : string) : bool :=
  existsb (String.eqb key) objectPrototypeMembers.

Definition selectorOptions (parameters : TraversalContext) (key : string)
  : PropertyRead :=
  match ownSelectors parameters !! key with
  | Some options => OwnProperty options
  | None => if inherited key then InheritedProperty else NoProperty
  end.

Definition visitSingletonField (field : Property.t) (props : CommonProps)
  : Visit Element :=
  parameters ← getParameters;
  let key := pathToString (stack parameters) in
  let value := get (json parameters) key in
  if Property.isPrimitive field then
    if String.eqb (Property.getType field) "Boolean" then
      mret (ConcertoCheckbox key (withIdValue props key value)
              (if checkboxStyle parameters is Some style
               then (if String.eqb style "toggle" then Some "toggle" else None)
               else None))
    else if String.eqb (toFieldType (Property.getType field)) "datetime-local"
    then mret (ConcertoDateTime key (withIdValue props key value))
    else
      match truthyString (getCustomSelectDecoratorKey field) with
      | Some customSelectorKey =>
          match selectorOptions parameters customSelectorKey with
          | NoProperty => throw (CustomSelectorKeyNotFound customSelectorKey)
          | InheritedProperty =>
              (* an inherited member is truthy and has no [map] *)
              throw (TypeError "options.map is not a function")
          | OwnProperty options =>
              mret (ConcertoDropdown
                {| dropdownId := key;
                   dropdownKey := "select-" +:+ key;
                   dropdownValue := value;
                   dropdownDisplayText := value;
                   dropdownField := None;
                   dropdownReadOnly := disabled parameters;
                   dropdownTextOnly := textOnly parameters;
                   dropdownOnFieldValueChange := onFieldValueChange parameters;
                   dropdownOptions :=
                     map (fun entry =>
                            {| optionKey := "option-" +:+ entryValue entry;
                               optionValue := entryValue entry;
                               optionText := entryText entry |})
                         options |})
          end
      | None => mret (ConcertoInput key (withIdValue props key value))
      end
  else
    match modelManager parameters !! Property.getFullyQualifiedTypeName field with
    | None => throw (TypeNotFound (Property.getFullyQualifiedTypeName field))
    | Some declared =>
        match findConcreteSubclass (modelManager parameters) declared with
        | inl message => throw (LibraryError message)
        | inr type =>
            let name :=
              match Property.getDecorator field "FormEditor" with
              | Some decorator => getArguments decorator !! 1%nat
              | None => Some (JString (Property.getName field))
              end in
            child ← accept (thingOfDeclaration type);
            mret (FormField (negb (Property.isOptional field)) name
                    (ConcertoLabel (propsSkipLabel props) name name) child)
        end
    end.

(** [value && value.map(callback)]: a falsy [value] is the result as it
    is, an array is mapped, anything else has no [map] to call. *)
Definition mapValue (value : JsValue) (callback : Json -> nat -> Visit Element)
  : Visit (option (list Element)) :=
  if truthy value then
    match value with
    | Some (JArray items) =>
        wrappers ← mapWithIndex callback 0 items;
        mret (Some wrappers)
    | _ => throw (TypeError "value.map is not a function")
    end
  else mret None.

Definition visitField (field : Property.t) : Visit Element :=
  entry ← getParameters;
  if hideProperty field entry || isHidden field then mret Null
  else
    push (Name (Property.getName field));;
    parameters ← getParameters;
    let key := pathToString (stack parameters) in
    let value := get (json parameters) key in
    let commonProps :=
      {| propsSkipLabel := skipLabel entry || Property.isArray field;
         propsId := key;
         propsField := Field field;
         propsValue := value;
         propsType := toFieldType (Property.getType field);
         propsRequired := negb (Property.isOptional field);
         propsReadOnly := disabled entry;
         propsTextOnly := textOnly entry;
         propsAddElement := addElement entry;
         propsRemoveElement := removeElement entry;
         propsOnFieldValueChange := onFieldValueChange entry;
         propsRelationshipProvider := None |} in
    component ←
      (if Property.isArray field then
         children ←
           mapValue value (fun _element index =>
             push (Index index);;
             child ← visitSingletonField field commonProps;
             let arrayComponent :=
               ConcertoArrayElement
                 (Property.getName field +:+ "_wrapper["
                    +:+ numberToString index +:+ "]")
                 commonProps index child in
             pop;;
             mret arrayComponent);
         mret (ConcertoArray (Property.getName field +:+ "_wrapper")
                 commonProps
                 (AddDefaultValue (addElement entry) field)
                 children)
       else visitSingletonField field commonProps);
    pop;;
    mret component.

Definition visitRelationship (relationship : Property.t) : Visit Element :=
  entry ← getParameters;
  if hideProperty relationship entry || isHidden relationship then mret Null
  else
    push (Name (Property.getName relationship));;
    parameters ← getParameters;
    let key := pathToString (stack parameters) in
    let value := get (json parameters) key in
    let commonProps :=
      {| propsSkipLabel := skipLabel entry || Property.isArray relationship;
         propsId := key;
         propsField := RelationshipDeclaration relationship;
         propsValue := value;
         propsType := "text";
         propsRequired := negb (Property.isOptional relationship);
         propsReadOnly := disabled entry;
         propsTextOnly := textOnly entry;
         propsAddElement := addElement entry;
         propsRemoveElement := removeElement entry;
         propsOnFieldValueChange := onFieldValueChange entry;
         propsRelationshipProvider := relationshipProvider entry |} in
    component ←
      (if Property.isArray relationship then
         match newResource (modelManager parameters)
                 (Property.getNamespace relationship)
                 (Property.getType relationship) "resource1"
                 (includeOptionalFields parameters)
                 (includeSampleData parameters) with
         | inl message => throw (LibraryError message)
         | inr resource =>
             children ←
               mapValue value (fun _element index =>
                 push (Index index);;
                 inner ← getParameters;
                 let key' := pathToString (stack inner) in
                 let value' := get (json inner) key' in
                 let arrayComponent :=
                   ConcertoArrayElement
                     ("relationship-" +:+ key' +:+ "-" +:+ numberToString index)
                     commonProps index
                     (ConcertoRelationship None
                        (withIdValue commonProps key' value')) in
                 pop;;
                 mret arrayComponent);
             mret (ConcertoArray key commonProps
                     (AddResourceURI (addElement entry) resource)
                     children)
         end
       else mret (ConcertoRelationship (Some key)
                    (withIdValue commonProps key value)));
    pop;;
    mret component.

(** Lines 63-66. *)
Definition ensureFileWriter : Visit unit :=
  parameters ← getParameters;
  if fileWriter parameters is None
  then modify (setFileWriter (Some NewWriter))
  else mret tt.

(** One activation of [visit], its nested calls going through
    [accept]. *)
Definition visitWith (thing : Thing) : Visit Element :=
  ensureFileWriter;;
  match thing with
  | AnEnumDeclaration e => visitEnumDeclaration e
  | AClassDeclaration c => visitClassDeclaration c
  | AField f => visitField f
  | ARelationshipDeclaration r => visitRelationship r
  | Unrecognised v => throw (UnrecognisedType v)
  end.
End Visitor.

(** [visit]: the recursion of the visitor through [accept], one unit of
    fuel per nested call. *)
Fixpoint visit `{Utilities} `{Libraries} (fuel : nat) (thing : Thing)
  : Visit Element :=
  match fuel with
  | O => fun _ => OutOfFuel
  | S fuel' => visitWith (visit fuel') thing
  end.

(** ** A sample environment

    Concrete collaborators, used to run the visitor on examples. *)
Module Sample.

(** Modelled from the spec: [pathToString] of [./utilities] ("path-to-string
    conversion", to the "dotted/indexed path syntax over nested
    objects/arrays" that the document lookup consumes). *)
Definition pathToString (path : list Segment) : string :=
  fold_left
    (fun acc segment =>
       match segment with
       | Name name => if String.eqb acc "" then name else acc +:+ "." +:+ name
       | Index index => acc +:+ "[" +:+ numberToString index +:+ "]"
       end)
    path "".

(** Modelled from the spec: [isHidden] of [./utilities] ("marked hidden by
    policy"): a [FormEditor] decorator whose arguments hold ["hide"]
    followed by [true]. *)
Fixpoint hideFlag (args : list Json) : bool :=
  match args with
  | JString "hide" :: ((JBool true :: _) as rest) => true
  | _ :: rest => hideFlag rest
  | [] => false
  end.

Definition isHidden (property : Property.t) : bool :=
  match Property.getDecorator property "FormEditor" with
  | Some decorator => hideFlag (getArguments decorator)
  | None => false
  end.

(** Modelled from the spec: [toFieldType] of [./utilities] ("type-name
    mapping" to the input mode of the widget). *)
Definition toFieldType (type : string) : string :=
  if String.eqb type "DateTime" then "datetime-local"
  else if existsb (String.eqb type) ["Integer"; "Long"; "Double"] then "number"
  else "text".

(** Modelled from the spec: [getDefaultValue] of [./utilities]
    ("default-value computation"). *)
Definition getDefaultValue (field : Property.t) (parameters : TraversalContext)
  : JsValue :=
  if Property.isPrimitive field then
    if String.eqb (Property.getType field) "Boolean" then Some (JBool false)
    else if String.eqb (toFieldType (Property.getType field)) "number"
    then Some (JNumber 0)
    else Some (JString "")
  else Some (JObject []).

(** Modelled from the spec: [getCustomSelectDecoratorKey] of [./utilities]
    ("decorator-argument extraction"): the argument that follows
    ["selectOptions"] in the [FormEditor] decorator. *)
Fixpoint selectOptionsKey (args : list Json) : option string :=
  match args with
  | JString "selectOptions" :: JString key :: _ => Some key
  | _ :: rest => selectOptionsKey rest
  | [] => None
  end.

Definition getCustomSelectDecoratorKey (field : Property.t) : option string :=
  match Property.getDecorator field "FormEditor" with
  | Some decorator => selectOptionsKey (getArguments decorator)
  | None => None
  end.

(** Modelled from the spec: [findConcreteSubclass] of [./utilities], which
    "substitutes the most specific concrete subclass if the declared type
    is abstract/polymorphic": a concrete declaration is kept, an abstract
    class gives way to the first concrete class of the model that
    extends it. *)
Definition extends (super : ClassDeclaration.t) (d : Declaration) : bool :=
  match d with
  | ClassDecl c =>
      negb (ClassDeclaration.isAbstract c)
      && (if ClassDeclaration.getSuperType c is Some name
          then String.eqb name (ClassDeclaration.getFullyQualifiedName super)
          else false)
  | EnumDecl _ => false
  end.

Definition findConcreteSubclass (model : gmap string Declaration)
  (declaration : Declaration) : string + Declaration :=
  match declaration with
  | EnumDecl _ => inr declaration
  | ClassDecl c =>
      if ClassDeclaration.isAbstract c then
        match List.find (extends c) (snd <$> map_to_list model) with
        | Some subclass => inr subclass
        | None => inl "No concrete subclasses found"
        end
      else inr declaration
  end.

#[global] Instance utilities : Utilities :=
  Build_Utilities isHidden getDefaultValue toFieldType pathToString
    getCustomSelectDecoratorKey findConcreteSubclass.

(** lodash's [get] on a path in string form: names separated by dots,
    indices in brackets. *)
Definition flushName (current : string) (rest : list Segment) : list Segment :=
  if String.eqb current "" then rest else Name current :: rest.

Definition indexOf (digits : string) : nat :=
  match NilZero.uint_of_string digits with
  | Some n => Nat.of_uint n
  | None => 0
  end.

Fixpoint parsePath (path current : string) : list Segment :=
  match path with
  | EmptyString => flushName current []
  | String a rest =>
      if Ascii.eqb a "." then flushName current (parsePath rest "")
      else if Ascii.eqb a "[" then flushName current (parsePath rest "")
      else if Ascii.eqb a "]" then Index (indexOf current) :: parsePath rest ""
      else parsePath rest (current +:+ String a EmptyString)
  end.

Fixpoint lookupPath (path : list Segment) (value : Json) : JsValue :=
  match path with
  | [] => Some value
  | Name name :: rest =>
      match value with
      | JObject members =>
          match List.find (fun member => String.eqb (fst member) name) members with
          | Some member => lookupPath rest (snd member)
          | None => None
          end
      | _ => None
      end
  | Index index :: rest =>
      match value with
      | JArray items =>
          match items !! index with
          | Some item => lookupPath rest item
          | None => None
          end
      | _ => None
      end
  end.

Definition get (object : JsValue) (path : string) : JsValue :=
  match object, parsePath path "" with
  | Some value, segment :: segments => lookupPath (segment :: segments) value
  | _, _ => None
  end.

(** The factory of concerto-core, as far as the visitor uses it: a
    resource of a declared type, and its URI. *)
Definition newResource (model : gmap string Declaration)
  (namespace type identifier : string) (includeOptionalFields generate : bool)
  : string + Resource :=
  match model !! (namespace +:+ "." +:+ type) with
  | Some _ => inr (MkResource namespace type identifier)
  | None => inl ("Type " +:+ type +:+ " is not defined in namespace " +:+ namespace)
  end.

Definition toURI (resource : Resource) : string :=
  match resource with
  | MkResource namespace type identifier =>
      "resource:" +:+ namespace +:+ "." +:+ type +:+ "#" +:+ identifier
  end.

#[global] Instance libraries : Libraries :=
  Build_Libraries get newResource toURI.

(** A context as a host creates it for one render. *)
Definition parameters (document : JsValue) (model : gmap string Declaration)
  : TraversalContext :=
  {| json := document; stack := []; skipLabel := false; disabled := false;
     textOnly := false; hideIdentifiers := false; hiddenFields := None;
     checkboxStyle := None; customSelectors := None; fileWriter := None;
     addElement := Handler "addElement";
     removeElement := Handler "removeElement";
     onFieldValueChange := Handler "onFieldValueChange";
     relationshipProvider := None; modelManager := model;
     includeOptionalFields := true; includeSampleData := false |}.

Definition primitive (owner name type : string) (array : bool)
  : Property.t :=
  {| Property.getName := name;
     Property.getFullyQualifiedName := owner +:+ "." +:+ name;
     Property.getNamespace := "org.example";
     Property.getType := type;
     Property.getFullyQualifiedTypeName := type;
     Property.isArray := array;
     Property.isOptional := false;
     Property.isPrimitive := true;
     Property.getDecorators := [] |}.

Definition decorated (name type : string) (arguments : list Json)
  : Property.t :=
  {| Property.getName := name;
     Property.getFullyQualifiedName := "org.example.Order." +:+ name;
     Property.getNamespace := "org.example";
     Property.getType := type;
     Property.getFullyQualifiedTypeName := type;
     Property.isArray := false;
     Property.isOptional := false;
     Property.isPrimitive := true;
     Property.getDecorators :=
       [{| decoratorName := "FormEditor"; getArguments := arguments |}] |}.

Definition complex (name type : string) (array : bool) : Property.t :=
  {| Property.getName := name;
     Property.getFullyQualifiedName := "org.example.Order." +:+ name;
     Property.getNamespace := "org.example";
     Property.getType := type;
     Property.getFullyQualifiedTypeName := "org.example." +:+ type;
     Property.isArray := array;
     Property.isOptional := false;
     Property.isPrimitive := false;
     Property.getDecorators := [] |}.

Definition tags : Property.t := primitive "org.example.Order" "tags" "String" true.
Definition paid : Property.t := primitive "org.example.Order" "paid" "Boolean" false.
Definition owners : Property.t := complex "owners" "Customer" true.
Definition note : Property.t := primitive "org.example.Order" "note" "String" false.
Definition customers : Property.t := complex "customers" "Customer" true.

(** [@FormEditor("selectOptions", "currencies")] and
    [@FormEditor("selectOptions", "")] *)
Definition currency : Property.t :=
  decorated "currency" "String" [JString "selectOptions"; JString "currencies"].

(** [@FormEditor("selectOptions", "constructor")] *)
Definition kind : Property.t :=
  decorated "kind" "String" [JString "selectOptions"; JString "constructor"].

(** [o String[] tags], with [@FormEditor("selectOptions", "currencies")] *)
Definition selectedTags : Property.t :=
  {| Property.getName := "tags";
     Property.getFullyQualifiedName := "org.example.Order.tags";
     Property.getNamespace := "org.example";
     Property.getType := "String";
     Property.getFullyQualifiedTypeName := "String";
     Property.isArray := true;
     Property.isOptional := false;
     Property.isPrimitive := true;
     Property.getDecorators :=
       [{| decoratorName := "FormEditor";
           getArguments := [JString "selectOptions"; JString "currencies"] |}] |}.

(** A writer the host has already written to. *)
Definition hostWriter : Writer :=
  {| beforeBuffer := ""; buffer := "<form>"; linesWritten := 1 |}.

(** [@FormEditor("hide", true)] *)
Definition secret : Property.t :=
  decorated "secret" "String" [JString "hide"; JBool true].

Definition currencies : gmap string (list SelectorEntry) :=
  {[ "currencies" :=
       [{| entryValue := "USD"; entryText := "US Dollar" |};
        {| entryValue := "EUR"; entryText := "Euro" |}] ]}.

Definition status : EnumDeclaration.t :=
  {| EnumDeclaration.getName := "Status";
     EnumDeclaration.getFullyQualifiedName := "org.example.Status";
     EnumDeclaration.getProperties := ["A"; "B"; "C"] |}.

Definition customer : ClassDeclaration.t :=
  {| ClassDeclaration.getName := "Customer";
     ClassDeclaration.getFullyQualifiedName := "org.example.Customer";
     ClassDeclaration.isAbstract := false;
     ClassDeclaration.getSuperType := None;
     ClassDeclaration.getIdentifierFieldName := None;
     ClassDeclaration.getProperties := [] |}.

(** [abstract participant Person identified by email] *)
Definition person : ClassDeclaration.t :=
  {| ClassDeclaration.getName := "Person";
     ClassDeclaration.getFullyQualifiedName := "org.example.Person";
     ClassDeclaration.isAbstract := true;
     ClassDeclaration.getSuperType := None;
     ClassDeclaration.getIdentifierFieldName := Some "email";
     ClassDeclaration.getProperties :=
       [Field (primitive "org.example.Person" "name" "String" false);
        Field (primitive "org.example.Person" "email" "String" false)] |}.

Definition monetaryAmount : ClassDeclaration.t :=
  {| ClassDeclaration.getName := "MonetaryAmount";
     ClassDeclaration.getFullyQualifiedName :=
       "org.accordproject.money.MonetaryAmount";
     ClassDeclaration.isAbstract := false;
     ClassDeclaration.getSuperType := None;
     ClassDeclaration.getIdentifierFieldName := None;
     ClassDeclaration.getProperties :=
       [Field (primitive "org.accordproject.money.MonetaryAmount" "doubleValue" "Double" false);
        Field (primitive "org.accordproject.money.MonetaryAmount" "currencyCode" "String" false)] |}.

Definition model : gmap string Declaration :=
  {[ "org.example.Customer" := ClassDecl customer;
     "org.example.Status" := EnumDecl status ]}.

Definition order : JsValue :=
  Some (JObject [("tags", JArray [JString "new"; JString "paid"]);
                 ("status", JString "B");
                 ("note", JString "fragile");
                 ("region", JString "EU");
                 ("paid", JBool true);
                 ("owners", JArray [JString "resource:org.example.Customer#7"]);
                 ("customers", JArray [JString "resource:org.example.Customer#1"])]).

(** A schema without cycles of type references:
    [abstract concept Shape {}],
    [concept Group extends Shape { o Shape inner }],
    [concept Root { o Shape shape }]. *)
Definition shapeField (owner name : string) : Property.t :=
  {| Property.getName := name;
     Property.getFullyQualifiedName := owner +:+ "." +:+ name;
     Property.getNamespace := "org.example";
     Property.getType := "Shape";
     Property.getFullyQualifiedTypeName := "org.example.Shape";
     Property.isArray := false;
     Property.isOptional := false;
     Property.isPrimitive := false;
     Property.getDecorators := [] |}.

Definition shape : ClassDeclaration.t :=
  {| ClassDeclaration.getName := "Shape";
     ClassDeclaration.getFullyQualifiedName := "org.example.Shape";
     ClassDeclaration.isAbstract := true;
     ClassDeclaration.getSuperType := None;
     ClassDeclaration.getIdentifierFieldName := None;
     ClassDeclaration.getProperties := [] |}.

Definition group : ClassDeclaration.t :=
  {| ClassDeclaration.getName := "Group";
     ClassDeclaration.getFullyQualifiedName := "org.example.Group";
     ClassDeclaration.isAbstract := false;
     ClassDeclaration.getSuperType := Some "org.example.Shape";
     ClassDeclaration.getIdentifierFieldName := None;
     ClassDeclaration.getProperties :=
       [Field (shapeField "org.example.Group" "inner")] |}.

Definition root : ClassDeclaration.t :=
  {| ClassDeclaration.getName := "Root";
     ClassDeclaration.getFullyQualifiedName := "org.example.Root";
     ClassDeclaration.isAbstract := false;
     ClassDeclaration.getSuperType := None;
     ClassDeclaration.getIdentifierFieldName := None;
     ClassDeclaration.getProperties :=
       [Field (shapeField "org.example.Root" "shape")] |}.

Definition shapes : gmap string Declaration :=
  {[ "org.example.Shape" := ClassDecl shape;
     "org.example.Group" := ClassDecl group;
     "org.example.Root" := ClassDecl root ]}.

(** [asset Invoice identified by number { o String number  o String note
    o String currency }], the last one with a selector. *)
Definition number : Property.t :=
  primitive "org.example.Invoice" "number" "String" false.

Definition invoice : ClassDeclaration.t :=
  {| ClassDeclaration.getName := "Invoice";
     ClassDeclaration.getFullyQualifiedName := "org.example.Invoice";
     ClassDeclaration.isAbstract := false;
     ClassDeclaration.getSuperType := None;
     ClassDeclaration.getIdentifierFieldName := Some "number";
     ClassDeclaration.getProperties :=
       [Field number; Field note; Field currency] |}.

Definition props (field : Property.t) : CommonProps :=
  {| propsSkipLabel := false; propsId := Property.getName field;
     propsField := Field field; propsValue := None; propsType := "text";
     propsRequired := true; propsReadOnly := false; propsTextOnly := false;
     propsAddElement := Handler "addElement";
     propsRemoveElement := Handler "removeElement";
     propsOnFieldValueChange := Handler "onFieldValueChange";
     propsRelationshipProvider := None |}.
End Sample.


(** ** Reasoning about outcomes *)

(** [wp m Q E D p]: running [m] from [p] either returns a result and
    parameters that satisfy [Q], or throws an error in parameters that
    satisfy [E]; [D] is what is claimed when the fuel runs out. *)
Definition wp {A : Type} (m : Visit A) (Q : A -> TraversalContext -> Prop)
  (E : Error -> TraversalContext -> Prop) (D : Prop) (p : TraversalContext)
  : Prop :=
  match m p with
  | Returned a p' => Q a p'
  | Threw e p' => E e p'
  | OutOfFuel => D
  end.

(** [new Writer()] is installed where the field is missing. *)
Definition withFileWriter (p : TraversalContext) : TraversalContext :=
  if fileWriter p is None then setFileWriter (Some NewWriter) p else p.

(** What no visit method changes: the document and the model; and the
    writer, once installed, stays. *)
Definition settled (p p' : TraversalContext) : Prop :=
  json p' = json p /\ modelManager p' = modelManager p
  /\ (fileWriter p' = fileWriter p
      \/ fileWriter p' = fileWriter (withFileWriter p)).

(** The error of a visit is the "Unrecognised type" one only for a thing
    that is none of the four classes. *)
Definition errorOf (thing : Thing) (e : Error) : Prop :=
  forall v, e = UnrecognisedType v -> thing = Unrecognised v.

(** On return the path stack is as at entry, and nothing else that
    [settled] protects has moved. *)
Definition balanced (p : TraversalContext) {A : Type} (_ : A)
  (p' : TraversalContext) : Prop :=
  stack p' = stack p /\ settled p p'.

Definition recognised (e : Error) : Prop :=
  forall v, e <> UnrecognisedType v.

(** A method entered at [p], itself reached from [p0], keeps the stack of
    [p] and stays within [settled] of [p0]; what it throws is not the
    "Unrecognised type" error. *)
Definition sound {A : Type} (p0 p : TraversalContext) (m : Visit A) : Prop :=
  wp m (fun _ p' => stack p' = stack p /\ settled p0 p')
       (fun e p' => settled p0 p' /\ recognised e) True p.

(** The identifier field of a class, as lines 102-104 find it. *)
Definition identifierField (c : ClassDeclaration.t) : option Member :=
  match truthyString (ClassDeclaration.getIdentifierFieldName c) with
  | Some name => ClassDeclaration.getProperty c name
  | None => None
  end.

(** concerto-core validates a class before the model manager holds it:
    the identifier that a class declares is one of its properties. *)
Definition validIdentifier (c : ClassDeclaration.t) : Prop :=
  forall name,
    truthyString (ClassDeclaration.getIdentifierFieldName c) = Some name ->
    is_Some (ClassDeclaration.getProperty c name).

(** The React [key] of an element, and the [id] among its props. *)
Definition elementKey (e : Element) : option string :=
  match e with
  | ConcertoInput key _ | ConcertoCheckbox key _ _ | ConcertoDateTime key _
  | ConcertoArray key _ _ _ | ConcertoArrayElement key _ _ _
  | MonetaryAmount key _ _ | Duration key _ _ | Div key _ => Some key
  | ConcertoDropdown props => Some (dropdownKey props)
  | ConcertoRelationship key _ => key
  | Null | ConcertoLabel _ _ _ | FormField _ _ _ _ | Elements _ => None
  end.

Definition elementId (e : Element) : option string :=
  match e with
  | ConcertoInput _ props | ConcertoCheckbox _ props _
  | ConcertoDateTime _ props | ConcertoArray _ props _ _
  | ConcertoArrayElement _ props _ _ | ConcertoRelationship _ props =>
      Some (propsId props)
  | ConcertoDropdown props => Some (dropdownId props)
  | _ => None
  end.

(** ** Acyclic schemas *)

(** The class that the visitor enters from class [c]: the one a
    non-primitive field of [c] resolves to, which is its declared type
    or the concrete subclass that [findConcreteSubclass] puts in its
    place. *)
Definition resolvesTo `{Utilities} (model : gmap string Declaration)
  (c c' : ClassDeclaration.t) : Prop :=
  exists field declared,
    Field field ∈ ClassDeclaration.getProperties c
    /\ Property.isPrimitive field = false
    /\ model !! Property.getFullyQualifiedTypeName field = Some declared
    /\ findConcreteSubclass model declared = inr (ClassDecl c').

Definition acyclicResolved `{Utilities} (model : gmap string Declaration)
  : Prop :=
  forall c, ~ tc (resolvesTo model) c c.

(** The type references of the schema: class [c] of the model has a
    field or a relationship whose declared type is class [c']. *)
Definition refersTo (model : gmap string Declaration)
  (c c' : ClassDeclaration.t) : Prop :=
  (exists name, model !! name = Some (ClassDecl c))
  /\ exists member,
       member ∈ ClassDeclaration.getProperties c
       /\ model !! Property.getFullyQualifiedTypeName (memberProperty member)
          = Some (ClassDecl c').

(** No class is reachable from itself through type references. *)
Definition acyclicDeclared (model : gmap string Declaration) : Prop :=
  forall c, ~ tc (refersTo model) c c.

(** The classes that a field of the model can resolve to. *)
Definition targets `{Utilities} (model : gmap string Declaration)
  : list ClassDeclaration.t :=
  omap (fun entry =>
          match findConcreteSubclass model (snd entry) with
          | inr (ClassDecl c) => Some c
          | _ => None
          end)
       (map_to_list model).

(** A run that ends, by a return or by an exception, and leaves the
    model in place. *)
Definition runsAt (model : gmap string Declaration) {A : Type}
  (m : Visit A) (p : TraversalContext) : Prop :=
  wp m (fun _ p' => modelManager p' = model) (fun _ _ => True) False p.

(** A context in the sample schema of shapes in which no field is
    hidden. *)
Definition inShapes (q : TraversalContext) : Prop :=
  modelManager q = Sample.shapes /\ hiddenFields q = None
  /\ hideIdentifiers q = false.

(** ** What a visit leaves alone *)

(** The fields of the context that no line of the visitor assigns. *)
Definition configuration (p : TraversalContext) :=
  (json p, disabled p, textOnly p, hideIdentifiers p, checkboxStyle p,
   customSelectors p, addElement p, removeElement p, onFieldValueChange p,
   relationshipProvider p, modelManager p, includeOptionalFields p,
   includeSampleData p).

(** The hidden-fields array, [undefined] read as empty. *)
Definition hiddenNames (p : TraversalContext) : list string :=
  default [] (hiddenFields p).

(** A method entered at [p], itself reached from [p0]: on return the
    stack is the one of [p]; on an exception the stack of [p] is a prefix
    of what is left; in both cases [R] relates [p0] to the final
    context. *)
Definition framed (R : relation TraversalContext) {A : Type}
  (p0 p : TraversalContext) (m : Visit A) : Prop :=
  wp m (fun _ p' => stack p' = stack p /\ R p0 p')
       (fun _ p' => stack p `prefix_of` stack p' /\ R p0 p') True p.

(** The props that a widget spreads from [commonProps]. *)
Definition elementProps (e : Element) : option CommonProps :=
  match e with
  | ConcertoInput _ props | ConcertoCheckbox _ props _
  | ConcertoDateTime _ props | ConcertoArray _ props _ _
  | ConcertoArrayElement _ props _ _ | ConcertoRelationship _ props =>
      Some props
  | _ => None
  end.

(** * Proofs *)

(** ** The model at work *)

Example sample_path :
  Sample.pathToString [Name "items"; Index 2; Name "price"] = "items[2].price".
Proof. reflexivity. Qed.

Example sample_get :
  Sample.get Sample.order "tags[1]" = Some (JString "paid").
Proof. reflexivity. Qed.

(** The three branches of [visitField]: hidden, scalar and array-valued. *)
Example hidden_field :
  visit 1 (AField Sample.secret) (Sample.parameters Sample.order Sample.model)
  = Returned Null (withFileWriter (Sample.parameters Sample.order Sample.model)).
Proof. vm_compute. reflexivity. Qed.

Example scalar_field :
  exists props,
    visit 1 (AField Sample.paid) (Sample.parameters Sample.order Sample.model)
    = Returned (ConcertoCheckbox "paid" props None)
        (withFileWriter (Sample.parameters Sample.order Sample.model))
    /\ propsId props = "paid" /\ propsValue props = Some (JBool true).
Proof. eexists. repeat split; vm_compute; reflexivity. Qed.

Example array_field :
  exists props closure wrappers,
    visit 1 (AField Sample.tags) (Sample.parameters Sample.order Sample.model)
    = Returned (ConcertoArray "tags_wrapper" props closure (Some wrappers))
        (withFileWriter (Sample.parameters Sample.order Sample.model))
    /\ map elementId
         (omap (fun w => if w is ConcertoArrayElement _ _ _ child
                         then Some child else None) wrappers)
       = [Some "tags[0]"; Some "tags[1]"].
Proof. eexists _, _, _. repeat split; vm_compute; reflexivity. Qed.

Example array_relationship :
  exists props closure wrappers p',
    visitRelationship Sample.owners (Sample.parameters Sample.order Sample.model)
    = Returned (ConcertoArray "owners" props closure (Some wrappers)) p'
    /\ map elementKey wrappers = [Some "relationship-owners[0]-0"]
    /\ invokeAddElement closure p' "click" "owners"
       = (Handler "addElement", "click", "owners",
          Some (JString "resource:org.example.Customer#resource1")).
Proof. eexists _, _, _, _. repeat split; vm_compute; reflexivity. Qed.

Example composite_amount :
  exists first second p',
    visit 3 (AClassDeclaration Sample.monetaryAmount)
      (setStack [Name "amount"] (Sample.parameters Sample.order Sample.model))
    = Returned (MonetaryAmount "monetaryamount" first second) p'
    /\ elementId first = Some "amount.doubleValue"
    /\ elementId second = Some "amount.currencyCode"
    /\ stack p' = [Name "amount"].
Proof. eexists _, _, _. repeat split; vm_compute; reflexivity. Qed.

Example missing_selector :
  visitSingletonField (visit 0) Sample.currency (Sample.props Sample.currency)
    (Sample.parameters Sample.order Sample.model)
  = Threw (CustomSelectorKeyNotFound "currencies")
      (Sample.parameters Sample.order Sample.model).
Proof. vm_compute. reflexivity. Qed.

Example unrecognised_thing :
  visit 1 (Unrecognised (ForeignObject "EnumValueDeclaration"))
    (Sample.parameters Sample.order Sample.model)
  = Threw (UnrecognisedType (ForeignObject "EnumValueDeclaration"))
      (withFileWriter (Sample.parameters Sample.order Sample.model)).
Proof. vm_compute. reflexivity. Qed.

Section Calculus.
Context {A B : Type}.
Implicit Types (Q : A -> TraversalContext -> Prop)
  (E : Error -> TraversalContext -> Prop) (D : Prop) (p : TraversalContext).

Lemma wp_ret (a : A) Q E D p : Q a p -> wp (mret a) Q E D p.
Proof. done. Qed.

Lemma wp_throw (e : Error) Q E D p : E e p -> wp (throw e) Q E D p.
Proof. done. Qed.

Lemma wp_bind (m : Visit B) (k : B -> Visit A) Q E D p :
  wp m (fun b q => wp (k b) Q E D q) E D p -> wp (m ≫= k) Q E D p.
Proof.
  unfold wp, mbind, Visit_bind. by destruct (m p).
Qed.

Lemma wp_mono (m : Visit A) Q Q' E E' (D D' : Prop) p :
  wp m Q E D p ->
  (forall a q, Q a q -> Q' a q) -> (forall e q, E e q -> E' e q) ->
  (D -> D') ->
  wp m Q' E' D' p.
Proof.
  unfold wp. destruct (m p); auto.
Qed.

End Calculus.

Lemma wp_getParameters Q E D p :
  Q p p -> wp getParameters Q E D p.
Proof. done. Qed.

Lemma wp_modify f Q E D p :
  Q tt (f p) -> wp (modify f) Q E D p.
Proof. done. Qed.

(** A loop invariant for [array.map]. *)
Lemma wp_mapWithIndex {A B : Type} (f : A -> nat -> Visit B)
  (I : TraversalContext -> Prop) E D (l : list A) :
  (forall x i q, x ∈ l -> I q -> wp (f x i) (fun _ q' => I q') E D q) ->
  forall i p, I p -> wp (mapWithIndex f i l) (fun _ q' => I q') E D p.
Proof.
  induction l as [|x l IH]; intros Hf i p Hp; simpl.
  - by apply wp_ret.
  - apply wp_bind. eapply wp_mono; [apply Hf; [left | done] | | done..].
    intros b q Hq. simpl. apply wp_bind.
    eapply wp_mono; [apply IH; [|done] | | done..].
    + intros y j r Hy. apply Hf. by right.
    + intros rs r Hr. simpl. by apply wp_ret.
Qed.

Lemma settled_refl p : settled p p.
Proof. repeat split; auto. Qed.

Lemma settled_trans p q r : settled p q -> settled q r -> settled p r.
Proof.
  intros (Hj & Hm & Hw) (Hj' & Hm' & Hw').
  split; [congruence|]. split; [congruence|].
  unfold withFileWriter in *.
  destruct (fileWriter p) eqn:Ep, (fileWriter q) eqn:Eq;
    simpl in *; destruct Hw as [Hw|Hw], Hw' as [Hw'|Hw'];
    rewrite ?Ep, ?Eq in *; simpl in *;
    first [congruence | left; congruence | right; congruence].
Qed.

Lemma settled_setStack s p : settled p (setStack s p).
Proof. repeat split; auto. Qed.

Lemma settled_setSkipLabel b p : settled p (setSkipLabel b p).
Proof. repeat split; auto. Qed.

Lemma settled_setHiddenFields h p : settled p (setHiddenFields h p).
Proof. repeat split; auto. Qed.

Lemma settled_withFileWriter p : settled p (withFileWriter p).
Proof. repeat split; unfold withFileWriter; destruct (fileWriter p); auto. Qed.

Lemma errorOf_member m e : errorOf (thingOfMember m) e -> recognised e.
Proof. intros He v ->. specialize (He v eq_refl). by destruct m. Qed.

Lemma errorOf_declaration d e : errorOf (thingOfDeclaration d) e -> recognised e.
Proof. intros He v ->. specialize (He v eq_refl). by destruct d. Qed.

Lemma recognised_errorOf thing e : recognised e -> errorOf thing e.
Proof. intros He v ->. by destruct (He v). Qed.

Lemma removelast_snoc {A : Type} (l : list A) (x : A) :
  removelast (l ++ [x]) = l.
Proof. apply removelast_last. Qed.

(** ** Stack balance, frame and error kinds, for every method *)

Section Soundness.
Context `{Utilities} `{Libraries}.
Variable accept : Thing -> Visit Element.

Hypothesis accept_sound : forall thing p,
  wp (accept thing) (balanced p)
     (fun e p' => settled p p' /\ errorOf thing e) True p.

Lemma sound_ret {A : Type} (a : A) p0 p : settled p0 p -> sound p0 p (mret a).
Proof. intros Hs. by apply wp_ret. Qed.

Lemma sound_throw {A : Type} e p0 p :
  settled p0 p -> recognised e -> sound p0 p (throw (A:=A) e).
Proof. intros Hs He. by apply wp_throw. Qed.

Lemma sound_bind {A B : Type} (m : Visit A) (k : A -> Visit B) p0 p :
  sound p0 p m ->
  (forall a q, stack q = stack p -> settled p0 q -> sound p0 q (k a)) ->
  sound p0 p (m ≫= k).
Proof.
  intros Hm Hk. apply wp_bind. eapply wp_mono; [apply Hm | | done..].
  intros a q [Hst Hq]. eapply wp_mono; [by apply Hk | | done..].
  intros b r [Hst' Hr]. split; [congruence | done].
Qed.

Lemma sound_getParameters p0 p : settled p0 p -> sound p0 p getParameters.
Proof. intros Hs. by apply wp_getParameters. Qed.

Lemma sound_modify f p0 p :
  (forall q, stack (f q) = stack q /\ settled q (f q)) ->
  settled p0 p -> sound p0 p (modify f).
Proof.
  intros Hf Hs. apply wp_modify. destruct (Hf p) as [Hst Hq].
  split; [done | by eapply settled_trans].
Qed.

Lemma sound_mapWithIndex {A B : Type} (f : A -> nat -> Visit B) l p0 :
  (forall x i q, settled p0 q -> sound p0 q (f x i)) ->
  forall i p, settled p0 p -> sound p0 p (mapWithIndex f i l).
Proof.
  intros Hf. induction l as [|x l IH]; intros i p Hs; simpl.
  - by apply sound_ret.
  - apply sound_bind; [by apply Hf|]. intros b q Hst Hq.
    apply sound_bind; [by apply IH|]. intros bs r Hst' Hr.
    by apply sound_ret.
Qed.

(** A nested call, seen from parameters [p0] that the caller has
    already moved, within [settled], to [p]. *)
Lemma accept_from (thing : Thing) (p0 p : TraversalContext) :
  settled p0 p -> (forall v, thing <> Unrecognised v) ->
  sound p0 p (accept thing).
Proof.
  intros Hs Hk. eapply wp_mono; [apply accept_sound | | | done].
  - intros a q [Hst Hq]. split; [done|]. by eapply settled_trans.
  - intros e q [Hq He]. split; [by eapply settled_trans|].
    intros v ->. by destruct (Hk v); apply He.
Qed.

Lemma acceptMember_sound props i p0 p :
  settled p0 p -> sound p0 p (acceptMember accept props i).
Proof.
  intros Hs. unfold acceptMember. destruct (props !! i) as [m|].
  - apply accept_from; [done | by destruct m].
  - by apply sound_throw.
Qed.

Lemma setSkipLabel_frame b q :
  stack (setSkipLabel b q) = stack q /\ settled q (setSkipLabel b q).
Proof. split; [done | apply settled_setSkipLabel]. Qed.

Lemma setHiddenFields_frame h q :
  stack (setHiddenFields h q) = stack q /\ settled q (setHiddenFields h q).
Proof. split; [done | apply settled_setHiddenFields]. Qed.

Lemma visitMonetaryAmount_sound c p0 p :
  settled p0 p -> sound p0 p (visitMonetaryAmount accept c).
Proof.
  intros Hs. unfold visitMonetaryAmount.
  apply sound_bind; [by apply sound_modify; [apply setSkipLabel_frame|]|].
  intros [] q1 Hst1 Hq1.
  apply sound_bind; [by apply acceptMember_sound|]. intros e1 q2 Hst2 Hq2.
  apply sound_bind; [by apply acceptMember_sound|]. intros e2 q3 Hst3 Hq3.
  apply sound_bind; [by apply sound_modify; [apply setSkipLabel_frame|]|].
  intros [] q4 Hst4 Hq4. by apply sound_ret.
Qed.

Lemma visitDuration_sound c p0 p :
  settled p0 p -> sound p0 p (visitDuration accept c).
Proof.
  intros Hs. unfold visitDuration.
  apply sound_bind; [by apply sound_modify; [apply setSkipLabel_frame|]|].
  intros [] q1 Hst1 Hq1.
  apply sound_bind; [by apply acceptMember_sound|]. intros e1 q2 Hst2 Hq2.
  apply sound_bind; [by apply acceptMember_sound|]. intros e2 q3 Hst3 Hq3.
  apply sound_bind; [by apply sound_modify; [apply setSkipLabel_frame|]|].
  intros [] q4 Hst4 Hq4. by apply sound_ret.
Qed.

Lemma visitAccordParty_sound c p0 p :
  settled p0 p -> sound p0 p (visitAccordParty accept c).
Proof.
  intros Hs. unfold visitAccordParty.
  apply sound_bind; [by apply sound_modify; [apply setSkipLabel_frame|]|].
  intros [] q1 Hst1 Hq1.
  apply sound_bind; [by apply acceptMember_sound|]. intros e1 q2 Hst2 Hq2.
  apply sound_bind; [by apply sound_modify; [apply setSkipLabel_frame|]|].
  intros [] q4 Hst4 Hq4. by apply sound_ret.
Qed.

Lemma hideIdentifier_sound c p0 p :
  settled p0 p -> sound p0 p (hideIdentifier c).
Proof.
  intros Hs. unfold hideIdentifier.
  apply sound_bind; [by apply sound_getParameters|]. intros q ? _ Hq.
  destruct (hideIdentifiers q); [|by apply sound_ret].
  apply sound_bind.
  { destruct (hiddenFields q);
      [by apply sound_ret
      |by apply sound_modify; [apply setHiddenFields_frame|]]. }
  intros [] q1 Hst1 Hq1.
  destruct (truthyString _) as [name|]; [|by apply sound_ret].
  destruct (ClassDeclaration.getProperty c name) as [idField|].
  - apply sound_modify; [|done]. intros r. apply setHiddenFields_frame.
  - by apply sound_throw.
Qed.

Lemma visitClassDeclaration_sound c p0 p :
  settled p0 p -> sound p0 p (visitClassDeclaration accept c).
Proof.
  intros Hs. unfold visitClassDeclaration.
  apply sound_bind; [by apply hideIdentifier_sound|]. intros [] q Hst Hq.
  destruct (ClassDeclaration.isAbstract c); [by apply sound_ret|].
  destruct (includes monetaryAmountNames _);
    [by apply visitMonetaryAmount_sound|].
  destruct (includes durationNames _); [by apply visitDuration_sound|].
  destruct (includes accordPartyNames _); [by apply visitAccordParty_sound|].
  apply sound_bind.
  - apply sound_mapWithIndex; [|done]. intros m i r Hr.
    apply accept_from; [done | by destruct m].
  - intros es r Hst' Hr. by apply sound_ret.
Qed.

Lemma visitEnumDeclaration_sound e p0 p :
  settled p0 p -> sound p0 p (visitEnumDeclaration e).
Proof.
  intros Hs. unfold visitEnumDeclaration.
  apply sound_bind; [by apply sound_getParameters|]. intros q ? _ Hq.
  by apply sound_ret.
Qed.

Lemma visitSingletonField_sound field props p0 p :
  settled p0 p -> sound p0 p (visitSingletonField accept field props).
Proof.
  intros Hs. unfold visitSingletonField.
  apply sound_bind; [by apply sound_getParameters|]. intros q ? _ Hq.
  destruct (Property.isPrimitive field).
  - destruct (String.eqb _ "Boolean"); [by apply sound_ret|].
    destruct (String.eqb _ "datetime-local"); [by apply sound_ret|].
    destruct (truthyString _) as [key|]; [|by apply sound_ret].
    destruct (selectorOptions q key);
      [by apply sound_ret | by apply sound_throw | by apply sound_throw].
  - destruct (modelManager q !! _) as [declared|]; [|by apply sound_throw].
    destruct (findConcreteSubclass _ declared) as [message|type];
      [by apply sound_throw|].
    apply sound_bind; [apply accept_from; [done | by destruct type]|].
    intros child r Hst Hr. by apply sound_ret.
Qed.

(** [stack.push(x)] opens a scope that the matching [stack.pop()]
    closes. *)
Lemma sound_push {A : Type} x (m : Visit A) p0 p :
  settled p0 p ->
  (forall q, stack q = (stack p ++ [x])%list -> settled p0 q ->
     wp m (fun _ p' => stack p' = stack p /\ settled p0 p')
          (fun e p' => settled p0 p' /\ recognised e) True q) ->
  sound p0 p (push x;; m).
Proof.
  intros Hs Hm. apply wp_bind, wp_modify. apply Hm; [done|].
  eapply settled_trans; [done | apply settled_setStack].
Qed.

Lemma sound_pop {A B : Type} (m : Visit A) (g : A -> B) p0 q s x :
  stack q = (s ++ [x])%list -> settled p0 q -> sound p0 q m ->
  wp (c ← m; pop;; mret (g c))
     (fun _ p' => stack p' = s /\ settled p0 p')
     (fun e p' => settled p0 p' /\ recognised e) True q.
Proof.
  intros Hst Hs Hm. apply wp_bind. eapply wp_mono; [apply Hm | | done..].
  intros c r [Hst' Hr]. apply wp_bind, wp_modify, wp_ret. split.
  - simpl. by rewrite Hst', Hst, removelast_snoc.
  - eapply settled_trans; [done | apply settled_setStack].
Qed.

Lemma mapValue_sound value callback p0 p :
  (forall x i q, settled p0 q -> sound p0 q (callback x i)) ->
  settled p0 p -> sound p0 p (mapValue value callback).
Proof.
  intros Hc Hs. unfold mapValue.
  destruct (truthy value); [|by apply sound_ret].
  destruct value as [[| | | |items|]|]; try by apply sound_throw.
  apply sound_bind; [by apply sound_mapWithIndex|].
  intros es q Hst Hq. by apply sound_ret.
Qed.

Lemma visitField_sound field p0 p :
  settled p0 p -> sound p0 p (visitField accept field).
Proof.
  intros Hs. unfold visitField.
  apply sound_bind; [by apply sound_getParameters|]. intros entry q0 Hst0 Hq0.
  destruct (hideProperty field entry || isHidden field);
    [by apply sound_ret|].
  eapply wp_mono; [apply sound_push; [exact Hq0|] | | done..].
  2: { intros a r [Hst Hr]. split; [congruence | done]. }
  intros q Hst Hq. apply wp_bind, wp_getParameters.
  eapply (sound_pop _ (fun c => c)); [exact Hst | exact Hq |].
  destruct (Property.isArray field).
  - apply sound_bind.
    + apply mapValue_sound; [|done]. intros x i r Hr.
      apply sound_push; [done|]. intros r' Hst' Hr'.
      apply (sound_pop _ _ _ _ _ _ Hst' Hr').
      by apply visitSingletonField_sound.
    + intros children r Hst' Hr. by apply sound_ret.
  - by apply visitSingletonField_sound.
Qed.

Lemma visitRelationship_sound relationship p0 p :
  settled p0 p -> sound p0 p (visitRelationship relationship).
Proof.
  intros Hs. unfold visitRelationship.
  apply sound_bind; [by apply sound_getParameters|]. intros entry q0 Hst0 Hq0.
  destruct (hideProperty relationship entry || isHidden relationship);
    [by apply sound_ret|].
  eapply wp_mono; [apply sound_push; [exact Hq0|] | | done..].
  2: { intros a r [Hst Hr]. split; [congruence | done]. }
  intros q Hst Hq. apply wp_bind, wp_getParameters.
  eapply (sound_pop _ (fun c => c)); [exact Hst | exact Hq |].
  destruct (Property.isArray relationship); [|by apply sound_ret].
  destruct (newResource _ _ _ _ _ _) as [message|resource];
    [by apply sound_throw|].
  apply sound_bind.
  - apply mapValue_sound; [|done]. intros x i r Hr.
    apply sound_push; [done|]. intros r' Hst' Hr'.
    apply wp_bind, wp_getParameters, wp_bind, wp_modify, wp_ret. split.
    * simpl. by rewrite Hst', removelast_snoc.
    * eapply settled_trans; [done | apply settled_setStack].
  - intros children r Hst' Hr. by apply sound_ret.
Qed.

Lemma visitWith_sound thing p :
  wp (visitWith accept thing) (balanced p)
     (fun e p' => settled p p' /\ errorOf thing e) True p.
Proof.
  unfold visitWith. apply wp_bind.
  assert (Hw : wp ensureFileWriter
                 (fun _ q => stack q = stack p /\ settled p q)
                 (fun _ _ => False) True p).
  { unfold ensureFileWriter. apply wp_bind, wp_getParameters.
    pose proof (settled_withFileWriter p) as Hp. unfold withFileWriter in Hp.
    destruct (fileWriter p); [by apply wp_ret | by apply wp_modify]. }
  eapply wp_mono; [apply Hw | | done..]. intros [] q [Hst Hq].
  assert (Hk : forall m : Visit Element, sound p q m ->
            wp m (balanced p)
               (fun e p' => settled p p' /\ errorOf thing e) True q).
  { intros m Hm. eapply wp_mono; [apply Hm | | | done].
    - intros a r [Hst' Hr]. split; [congruence | done].
    - intros e r [Hr He]. split; [done | by apply recognised_errorOf]. }
  destruct thing as [e|c|f|r|v].
  - by apply Hk, visitEnumDeclaration_sound.
  - by apply Hk, visitClassDeclaration_sound.
  - by apply Hk, visitField_sound.
  - by apply Hk, visitRelationship_sound.
  - apply wp_throw. split; [done|]. by intros v' [= ->].
Qed.
End Soundness.

Lemma visit_sound `{Utilities} `{Libraries} fuel thing p :
  wp (visit fuel thing) (balanced p)
     (fun e p' => settled p p' /\ errorOf thing e) True p.
Proof.
  revert thing p. induction fuel as [|fuel IH]; intros thing p; [done|].
  simpl. by apply visitWith_sound.
Qed.

(** ** The claims *)

(** C1: when [visitField] or [visitRelationship] returns, the path stack
    of the context is the one it had at entry, in depth and in contents,
    whichever branch ran: hidden, scalar or array-valued (every index
    pushed for an element wrapper has been popped). *)
Theorem visitField_visitRelationship_balance `{Utilities} `{Libraries}
  (fuel : nat) (property : Property.t) (p p' : TraversalContext)
  (component : Element) :
  visitField (visit fuel) property p = Returned component p'
  \/ visitRelationship property p = Returned component p' ->
  stack p' = stack p.
Proof.
  intros [Hv|Hv].
  - pose proof (visitField_sound (visit fuel) (visit_sound fuel) property p p
                  (settled_refl p)) as Hs.
    unfold sound, wp in Hs. rewrite Hv in Hs. by destruct Hs.
  - pose proof (visitRelationship_sound property p p (settled_refl p)) as Hs.
    unfold sound, wp in Hs. rewrite Hv in Hs. by destruct Hs.
Qed.

Lemma visitField_visitRelationship_balance_witness :
  exists component p',
    visitField (visit 0) Sample.tags
      (Sample.parameters Sample.order ∅) = Returned component p'
    /\ stack p' = stack (Sample.parameters Sample.order ∅).
Proof.
  eexists _, _. split; [vm_compute; reflexivity|].
  eapply (visitField_visitRelationship_balance 0 Sample.tags).
  left. vm_compute. reflexivity.
Defined.

Lemma ensureFileWriter_run p :
  ensureFileWriter p = Returned tt (withFileWriter p).
Proof.
  unfold ensureFileWriter, withFileWriter, mbind, Visit_bind, getParameters.
  by destruct (fileWriter p).
Qed.

Lemma withFileWriter_twice p :
  withFileWriter (withFileWriter p) = withFileWriter p.
Proof.
  unfold withFileWriter. destruct (fileWriter p) eqn:Ep; simpl; by rewrite ?Ep.
Qed.

Lemma visitWith_run `{Utilities} `{Libraries} accept thing p :
  visitWith accept thing p =
  match thing with
  | AnEnumDeclaration e => visitEnumDeclaration e (withFileWriter p)
  | AClassDeclaration c => visitClassDeclaration accept c (withFileWriter p)
  | AField f => visitField accept f (withFileWriter p)
  | ARelationshipDeclaration r => visitRelationship r (withFileWriter p)
  | Unrecognised v => Threw (UnrecognisedType v) (withFileWriter p)
  end.
Proof.
  unfold visitWith, mbind, Visit_bind. rewrite ensureFileWriter_run.
  by destruct thing.
Qed.

Lemma visit_withFileWriter `{Utilities} `{Libraries} fuel thing p :
  visit fuel thing p = visit fuel thing (withFileWriter p).
Proof.
  destruct fuel as [|fuel]; [done|]. simpl.
  by rewrite !visitWith_run, withFileWriter_twice.
Qed.

(** C2: [visit] dispatches on the variant of the node alone, each of the
    four classes to its own method; any other value raises the
    "Unrecognised type" error, which reaches the caller; and a visit of a
    node of one of the four classes never ends in that error, at any
    depth of the recursion. *)
Theorem visit_dispatch `{Utilities} `{Libraries}
  (fuel : nat) (thing : Thing) (p : TraversalContext) :
  visit (S fuel) thing p =
    match thing with
    | AnEnumDeclaration e => visitEnumDeclaration e (withFileWriter p)
    | AClassDeclaration c =>
        visitClassDeclaration (visit fuel) c (withFileWriter p)
    | AField f => visitField (visit fuel) f (withFileWriter p)
    | ARelationshipDeclaration r => visitRelationship r (withFileWriter p)
    | Unrecognised v => Threw (UnrecognisedType v) (withFileWriter p)
    end
  /\ forall n v p',
       visit n thing p = Threw (UnrecognisedType v) p' ->
       thing = Unrecognised v.
Proof.
  split; [apply visitWith_run|]. intros n v p' Hv.
  pose proof (visit_sound n thing p) as Hs. unfold wp in Hs.
  rewrite Hv in Hs. destruct Hs as [_ He]. by apply He.
Qed.

(** C10: a call of [visit] on a context without [fileWriter] leaves a new
    [Writer] in it, installed before the dispatch (the visit runs as it
    does from the context that holds the writer), whether the call
    returns or throws; a context that holds a writer keeps that one. *)
Theorem visit_installs_fileWriter `{Utilities} `{Libraries}
  (fuel : nat) (thing : Thing) (p p' : TraversalContext) :
  finalParameters (visit fuel thing p) = Some p' ->
  visit fuel thing p = visit fuel thing (withFileWriter p)
  /\ (fileWriter p = None -> fileWriter p' = Some NewWriter)
  /\ (forall w, fileWriter p = Some w -> fileWriter p' = Some w).
Proof.
  intros Hf. split; [apply visit_withFileWriter|].
  rewrite visit_withFileWriter in Hf.
  pose proof (visit_sound fuel thing (withFileWriter p)) as Hs.
  unfold wp in Hs.
  assert (Hw : fileWriter p' = fileWriter (withFileWriter p)).
  { destruct (visit fuel thing (withFileWriter p)) as [a q|e q|];
      simplify_eq/=.
    - destruct Hs as [_ (_ & _ & [Hw|Hw])];
        by rewrite ?withFileWriter_twice in Hw.
    - destruct Hs as [(_ & _ & [Hw|Hw]) _];
        by rewrite ?withFileWriter_twice in Hw. }
  rewrite Hw. unfold withFileWriter.
  destruct (fileWriter p) as [w|] eqn:Ep; split; try done.
  intros w' [= <-]. done.
Qed.

Lemma visit_installs_fileWriter_witness :
  (exists p',
     finalParameters
       (visit 1 (Unrecognised (ForeignValue (Some (JNumber 7))))
          (Sample.parameters Sample.order ∅)) = Some p'
     /\ fileWriter p' = Some NewWriter)
  /\ (exists p',
        finalParameters
          (visit 3 (AClassDeclaration Sample.monetaryAmount)
             (setFileWriter (Some Sample.hostWriter)
                (Sample.parameters Sample.order Sample.model))) = Some p'
        /\ fileWriter p' = Some Sample.hostWriter
        /\ Sample.hostWriter <> NewWriter).
Proof.
  split.
  - eexists. split; [vm_compute; reflexivity|].
    refine (proj1 (proj2 (visit_installs_fileWriter 1
              (Unrecognised (ForeignValue (Some (JNumber 7))))
              (Sample.parameters Sample.order ∅) _ _)) _);
      vm_compute; reflexivity.
  - eexists. split; [vm_compute; reflexivity|]. split; [|done].
    refine (proj2 (proj2 (visit_installs_fileWriter 3
              (AClassDeclaration Sample.monetaryAmount)
              (setFileWriter (Some Sample.hostWriter)
                 (Sample.parameters Sample.order Sample.model)) _ _))
              Sample.hostWriter _);
      vm_compute; reflexivity.
Defined.

Lemma hideProperty_elem property p names :
  hiddenFields p = Some names ->
  Property.getFullyQualifiedName property ∈ names ->
  hideProperty property p = true.
Proof.
  intros Hh Hin. unfold hideProperty. rewrite Hh.
  apply existsb_exists. exists (Property.getFullyQualifiedName property).
  split; [by apply list_elem_of_In | apply String.eqb_refl].
Qed.

(** C7: a field or relationship that is hidden by policy, or whose
    qualified name is in the hidden-fields set of the context, renders as
    [null]: nothing is pushed on the path stack (the context comes back
    as it was), no element is built, and the document plays no part
    (the outcome is the same for every document and for every lookup
    function). *)
Theorem hidden_property_renders_null `{Utilities} `{Libraries}
  (accept : Thing -> Visit Element) (property : Property.t)
  (p : TraversalContext) :
  isHidden property = true
  \/ (exists names, hiddenFields p = Some names
                    /\ Property.getFullyQualifiedName property ∈ names) ->
  forall document,
    visitField accept property (setJson document p)
      = Returned Null (setJson document p)
    /\ visitRelationship property (setJson document p)
      = Returned Null (setJson document p).
Proof.
  intros Hh document.
  assert (Hb : hideProperty property (setJson document p) || isHidden property
               = true).
  { destruct Hh as [->|(names & Hn & Hin)]; [apply orb_true_r|].
    by rewrite (hideProperty_elem property (setJson document p) names). }
  unfold visitField, visitRelationship, mbind, Visit_bind, getParameters.
  by rewrite Hb.
Qed.

Lemma hidden_property_renders_null_witness :
  visitField (visit 0) Sample.secret
    (setJson Sample.order (Sample.parameters None Sample.model))
    = Returned Null (setJson Sample.order (Sample.parameters None Sample.model))
  /\ visitRelationship Sample.secret
       (setJson Sample.order (Sample.parameters None Sample.model))
     = Returned Null (setJson Sample.order (Sample.parameters None Sample.model)).
Proof.
  apply (hidden_property_renders_null (visit 0) Sample.secret
           (Sample.parameters None Sample.model)).
  left. reflexivity.
Defined.

Lemma hideIdentifier_run (c : ClassDeclaration.t) (p : TraversalContext) :
  (hideIdentifiers p = true -> validIdentifier c) ->
  hideIdentifier c p =
  Returned tt
    (if hideIdentifiers p
     then setHiddenFields
            (Some (default [] (hiddenFields p)
                   ++ match identifierField c with
                      | Some idField =>
                          [Property.getFullyQualifiedName (memberProperty idField)]
                      | None => []
                      end)%list) p
     else p).
Proof.
  intros Hv. unfold hideIdentifier, identifierField.
  unfold mbind, Visit_bind, getParameters.
  destruct (hideIdentifiers p); [|done].
  specialize (Hv eq_refl). unfold validIdentifier in Hv.
  destruct (truthyString _) as [name|].
  - destruct (Hv name eq_refl) as [idField ->].
    destruct (hiddenFields p) as [names|] eqn:Eh; unfold modify; simpl;
      by rewrite ?Eh.
  - destruct (hiddenFields p) as [names|] eqn:Eh; unfold modify; simpl;
      rewrite ?app_nil_r; [|done].
    unfold mret, Visit_ret. f_equal. destruct p; simpl in *. by rewrite Eh.
Qed.

(** C8: an abstract class declaration renders as [null], and it does so
    after the identifier has been hidden: with [hideIdentifiers] set, the
    qualified name of the identifier field of the class is at the end of
    the hidden-fields set of the context that comes back; nothing else of
    the context moves, and nothing at all without [hideIdentifiers]. *)
Theorem abstract_class_renders_null
  (accept : Thing -> Visit Element) (c : ClassDeclaration.t)
  (p : TraversalContext) :
  ClassDeclaration.isAbstract c = true ->
  (hideIdentifiers p = true -> validIdentifier c) ->
  exists p',
    visitClassDeclaration accept c p = Returned Null p'
    /\ p' = (if hideIdentifiers p then setHiddenFields (hiddenFields p') p else p)
    /\ (hideIdentifiers p = true ->
        forall idField, identifierField c = Some idField ->
        hiddenFields p' =
          Some (default [] (hiddenFields p)
                ++ [Property.getFullyQualifiedName (memberProperty idField)])%list).
Proof.
  intros Ha Hv. eexists. split; [|split].
  - unfold visitClassDeclaration, mbind, Visit_bind.
    rewrite (hideIdentifier_run c p Hv), Ha. reflexivity.
  - by destruct (hideIdentifiers p).
  - intros -> idField ->. reflexivity.
Qed.

Lemma abstract_class_renders_null_witness :
  exists p',
    visitClassDeclaration (visit 0) Sample.person
      (setHideIdentifiers true (Sample.parameters Sample.order Sample.model))
      = Returned Null p'
    /\ hiddenFields p' = Some ["org.example.Person.email"].
Proof.
  destruct (abstract_class_renders_null (visit 0) Sample.person
              (setHideIdentifiers true
                 (Sample.parameters Sample.order Sample.model)))
    as (p' & Hv & _ & Hh).
  - reflexivity.
  - intros _ name [= <-]. by eexists.
  - exists p'. split; [exact Hv|].
    exact (Hh eq_refl _ eq_refl).
Defined.

(** What [options.map(({ value, text }) => ...)] makes of a registered
    option list. *)
Lemma truthyString_Some key : key <> "" -> truthyString (Some key) = Some key.
Proof. intros Hk. simpl. by apply String.eqb_neq in Hk as ->. Qed.




(** A key that names an inherited member and has no entry of its own
    raises a [TypeError], not the configuration error: with
    [@FormEditor("selectOptions", "constructor")] and the registry of the
    currencies, [customSelectors["constructor"]] is the function [Object]. *)
Example custom_selector_inherited_key :
  let p := setCustomSelectors (Some Sample.currencies)
             (setStack [Name "kind"]
                (Sample.parameters Sample.order Sample.model)) in
  getCustomSelectDecoratorKey Sample.kind = Some "constructor"
  /\ ownSelectors p !! "constructor" = None
  /\ visitSingletonField (visit 0) Sample.kind (Sample.props Sample.kind) p
     = Threw (TypeError "options.map is not a function") p.
Proof. repeat split; vm_compute; reflexivity. Qed.





(** C5, as the code has it: the selector of an enumeration shows the
    value that the document holds at the current path, and has one option
    per declared literal, in declaration order; the value and the text of
    an option are the name of the literal, its key is the name after the
    prefix ["option-"]. *)
Theorem visitEnumDeclaration_selector `{Utilities} `{Libraries}
  (enumDeclaration : EnumDeclaration.t) (p : TraversalContext)
  (value : JsValue) :
  get (json p) (pathToString (stack p)) = value ->
  exists d,
    visitEnumDeclaration enumDeclaration p = Returned (ConcertoDropdown d) p
    /\ dropdownValue d = value
    /\ dropdownDisplayText d = value
    /\ map optionValue (dropdownOptions d)
       = EnumDeclaration.getProperties enumDeclaration
    /\ map optionText (dropdownOptions d)
       = EnumDeclaration.getProperties enumDeclaration
    /\ map optionKey (dropdownOptions d)
       = map (String.append "option-")
           (EnumDeclaration.getProperties enumDeclaration).
Proof.
  intros Hv. eexists. split; [reflexivity|]. simpl.
  rewrite !map_map. simpl. rewrite map_id. by repeat split.
Qed.

Lemma visitEnumDeclaration_selector_witness :
  exists d,
    visitEnumDeclaration Sample.status
      (setStack [Name "status"] (Sample.parameters Sample.order Sample.model))
    = Returned (ConcertoDropdown d)
        (setStack [Name "status"] (Sample.parameters Sample.order Sample.model))
    /\ dropdownValue d = Some (JString "B")
    /\ map optionValue (dropdownOptions d) = ["A"; "B"; "C"].
Proof.
  destruct (visitEnumDeclaration_selector Sample.status
              (setStack [Name "status"]
                 (Sample.parameters Sample.order Sample.model))
              (Some (JString "B")))
    as (d & Hv & Hd & _ & Ho & _); [reflexivity|].
  exists d. by repeat split.
Defined.

(** C5 as stated fails on the keys of the options: for the literals A, B
    and C and the document value "B", the keys are not the names. *)
Lemma visitEnumDeclaration_option_keys :
  exists d,
    visitEnumDeclaration Sample.status
      (setStack [Name "status"] (Sample.parameters Sample.order Sample.model))
    = Returned (ConcertoDropdown d)
        (setStack [Name "status"] (Sample.parameters Sample.order Sample.model))
    /\ dropdownValue d = Some (JString "B")
    /\ map optionKey (dropdownOptions d) = ["option-A"; "option-B"; "option-C"]
    /\ map optionKey (dropdownOptions d)
       <> EnumDeclaration.getProperties Sample.status.
Proof. eexists. repeat split; try (vm_compute; reflexivity). done. Qed.

(** ** Array containers *)

Lemma bind_run {A B : Type} (m : Visit A) (k : A -> Visit B) p :
  (m ≫= k) p =
  match m p with
  | Returned a q => k a q
  | Threw e q => Threw e q
  | OutOfFuel => OutOfFuel
  end.
Proof. reflexivity. Qed.

Lemma setStack_id p : setStack (stack p) p = p.
Proof. by destruct p. Qed.

Lemma mapWithIndex_pure {A B : Type} (g : nat -> A -> B)
  (f : A -> nat -> Visit B) (l : list A) p :
  (forall x i, f x i p = Returned (g i x) p) ->
  forall i, mapWithIndex f i l p = Returned (imap (fun k => g (i + k)) l) p.
Proof.
  intros Hf. induction l as [|x l IH]; intros i; simpl; [done|].
  rewrite bind_run, Hf, bind_run, IH, Nat.add_0_r. unfold mret, Visit_ret.
  do 2 f_equal. apply imap_ext. intros k y _. simpl. f_equal. lia.
Qed.

Lemma visitRelationship_array `{Utilities} `{Libraries}
  (relationship : Property.t) (p : TraversalContext) (items : list Json)
  (resource : Resource) :
  let path := (stack p ++ [Name (Property.getName relationship)])%list in
  hideProperty relationship p || isHidden relationship = false ->
  Property.isArray relationship = true ->
  get (json p) (pathToString path) = Some (JArray items) ->
  newResource (modelManager p) (Property.getNamespace relationship)
    (Property.getType relationship) "resource1"
    (includeOptionalFields p) (includeSampleData p) = inr resource ->
  exists props,
    propsId props = pathToString path
    /\ visitRelationship relationship p =
       Returned
         (ConcertoArray (pathToString path) props
            (AddResourceURI (addElement p) resource)
            (Some (imap
               (fun i _ =>
                  let key := pathToString (path ++ [Index i]) in
                  ConcertoArrayElement
                    ("relationship-" +:+ key +:+ "-" +:+ numberToString i)
                    props i
                    (ConcertoRelationship None
                       (withIdValue props key (get (json p) key))))
               items)))
         p.
Proof.
  intros path Hh Ha Hv Hn. unfold visitRelationship.
  rewrite bind_run. unfold getParameters at 1. cbv beta iota. rewrite Hh.
  rewrite bind_run. unfold push at 1, modify at 1. cbv beta iota.
  rewrite bind_run. unfold getParameters at 1. cbv beta iota.
  rewrite Ha. cbn [stack json setStack modelManager includeOptionalFields
                   includeSampleData]. fold path. rewrite Hv, Hn.
  set (props := {| propsSkipLabel := skipLabel p || true;
                   propsId := pathToString path |}).
  exists props. split; [done|].
  unfold mapValue. cbn [truthy].
  set (callback := fun (_ : Json) (index : nat) => (push (Index index) ≫= _)).
  rewrite !bind_run.
  rewrite (mapWithIndex_pure
             (fun i (_ : Json) =>
                let key := pathToString (path ++ [Index i]) in
                ConcertoArrayElement
                  ("relationship-" +:+ key +:+ "-" +:+ numberToString i)
                  props i
                  (ConcertoRelationship None
                     (withIdValue props key (get (json p) key))))
             callback).
  - unfold mret, Visit_ret, pop, modify. rewrite bind_run.
    cbn [stack setStack].
    replace (removelast path) with (stack p)
      by (symmetry; apply removelast_snoc).
    f_equal. by destruct p.
  - intros x i. subst callback. cbv beta.
    rewrite bind_run. unfold push at 1, modify at 1. cbv beta iota.
    rewrite bind_run. unfold getParameters at 1. cbv beta iota.
    rewrite bind_run. unfold pop at 1, modify at 1. cbv beta iota.
    cbn [stack json setStack]. by rewrite removelast_snoc.
Qed.

(** ** Termination *)

Section Termination.
Context `{Utilities} `{Libraries}.
Variable model : gmap string Declaration.
Variable accept : Thing -> Visit Element.

Lemma runs_ret {A : Type} (a : A) p :
  modelManager p = model -> runsAt model (mret a) p.
Proof. intros Hp. by apply wp_ret. Qed.

Lemma runs_throw {A : Type} e p : runsAt model (throw (A:=A) e) p.
Proof. by apply wp_throw. Qed.

Lemma runs_bind {A B : Type} (m : Visit A) (k : A -> Visit B) p :
  runsAt model m p ->
  (forall a q, modelManager q = model -> runsAt model (k a) q) ->
  runsAt model (m ≫= k) p.
Proof.
  intros Hm Hk. apply wp_bind. eapply wp_mono; [apply Hm | | done..].
  intros a q Hq. by apply Hk.
Qed.

Lemma runs_getParameters {B : Type} (k : TraversalContext -> Visit B) p :
  runsAt model (k p) p -> runsAt model (getParameters ≫= k) p.
Proof. intros Hk. by apply wp_bind, wp_getParameters. Qed.

Lemma runs_modify f p :
  modelManager (f p) = model -> runsAt model (modify f) p.
Proof. intros Hf. by apply wp_modify. Qed.

Lemma runs_mapWithIndex {A B : Type} (f : A -> nat -> Visit B) l :
  (forall x i q, x ∈ l -> modelManager q = model -> runsAt model (f x i) q) ->
  forall i p, modelManager p = model -> runsAt model (mapWithIndex f i l) p.
Proof.
  intros Hf i p Hp.
  by apply (wp_mapWithIndex f (fun q => modelManager q = model)).
Qed.

Lemma acceptMember_runs props i p :
  (forall member q, member ∈ props -> modelManager q = model ->
     runsAt model (accept (thingOfMember member)) q) ->
  modelManager p = model -> runsAt model (acceptMember accept props i) p.
Proof.
  intros Ha Hp. unfold acceptMember.
  destruct (props !! i) as [member|] eqn:Hi; [|apply runs_throw].
  apply Ha; [|done]. by eapply list_elem_of_lookup_2.
Qed.

Lemma hideIdentifier_runs c p :
  modelManager p = model -> runsAt model (hideIdentifier c) p.
Proof.
  intros Hp. unfold hideIdentifier. apply runs_getParameters.
  destruct (hideIdentifiers p); [|by apply runs_ret].
  apply runs_bind.
  { destruct (hiddenFields p); [by apply runs_ret | by apply runs_modify]. }
  intros [] q Hq. destruct (truthyString _) as [name|]; [|by apply runs_ret].
  destruct (ClassDeclaration.getProperty c name);
    [by apply runs_modify | apply runs_throw].
Qed.

Lemma visitClassDeclaration_runs c p :
  (forall member q, member ∈ ClassDeclaration.getProperties c ->
     modelManager q = model ->
     runsAt model (accept (thingOfMember member)) q) ->
  modelManager p = model ->
  runsAt model (visitClassDeclaration accept c) p.
Proof.
  intros Ha Hp. unfold visitClassDeclaration.
  apply runs_bind; [by apply hideIdentifier_runs|]. intros [] q Hq.
  destruct (ClassDeclaration.isAbstract c); [by apply runs_ret|].
  destruct (includes monetaryAmountNames _).
  { unfold visitMonetaryAmount.
    apply runs_bind; [by apply runs_modify|]. intros [] q1 Hq1.
    apply runs_bind; [by apply acceptMember_runs|]. intros e1 q2 Hq2.
    apply runs_bind; [by apply acceptMember_runs|]. intros e2 q3 Hq3.
    apply runs_bind; [by apply runs_modify|]. intros [] q4 Hq4.
    by apply runs_ret. }
  destruct (includes durationNames _).
  { unfold visitDuration.
    apply runs_bind; [by apply runs_modify|]. intros [] q1 Hq1.
    apply runs_bind; [by apply acceptMember_runs|]. intros e1 q2 Hq2.
    apply runs_bind; [by apply acceptMember_runs|]. intros e2 q3 Hq3.
    apply runs_bind; [by apply runs_modify|]. intros [] q4 Hq4.
    by apply runs_ret. }
  destruct (includes accordPartyNames _).
  { unfold visitAccordParty.
    apply runs_bind; [by apply runs_modify|]. intros [] q1 Hq1.
    apply runs_bind; [by apply acceptMember_runs|]. intros e1 q2 Hq2.
    apply runs_bind; [by apply runs_modify|]. intros [] q4 Hq4.
    by apply runs_ret. }
  apply runs_bind.
  - apply runs_mapWithIndex; [|done]. intros member i r Hin Hr. by apply Ha.
  - intros es r Hr. by apply runs_ret.
Qed.

Lemma visitEnumDeclaration_runs e p :
  modelManager p = model -> runsAt model (visitEnumDeclaration e) p.
Proof.
  intros Hp. unfold visitEnumDeclaration. apply runs_getParameters.
  by apply runs_ret.
Qed.

Lemma visitSingletonField_runs field props p :
  (forall declared type q,
     Property.isPrimitive field = false ->
     model !! Property.getFullyQualifiedTypeName field = Some declared ->
     findConcreteSubclass model declared = inr type ->
     modelManager q = model ->
     runsAt model (accept (thingOfDeclaration type)) q) ->
  modelManager p = model ->
  runsAt model (visitSingletonField accept field props) p.
Proof.
  intros Ha Hp. unfold visitSingletonField. apply runs_getParameters.
  destruct (Property.isPrimitive field) eqn:Hprim.
  - destruct (String.eqb _ "Boolean"); [by apply runs_ret|].
    destruct (String.eqb _ "datetime-local"); [by apply runs_ret|].
    destruct (truthyString _) as [key|]; [|by apply runs_ret].
    destruct (selectorOptions p key);
      [by apply runs_ret | apply runs_throw | apply runs_throw].
  - rewrite Hp.
    destruct (model !! _) as [declared|] eqn:Hd; [|apply runs_throw].
    destruct (findConcreteSubclass model declared) as [message|type] eqn:Hf;
      [apply runs_throw|].
    apply runs_bind; [by eapply Ha|]. intros child q Hq. by apply runs_ret.
Qed.

Lemma mapValue_runs value callback p :
  (forall x i q, modelManager q = model -> runsAt model (callback x i) q) ->
  modelManager p = model -> runsAt model (mapValue value callback) p.
Proof.
  intros Hc Hp. unfold mapValue.
  destruct (truthy value); [|by apply runs_ret].
  destruct value as [[| | | |items|]|]; try apply runs_throw.
  apply runs_bind; [apply runs_mapWithIndex; [|done]; intros; by apply Hc|].
  intros es q Hq. by apply runs_ret.
Qed.

Lemma visitField_runs field p :
  (forall declared type q,
     Property.isPrimitive field = false ->
     model !! Property.getFullyQualifiedTypeName field = Some declared ->
     findConcreteSubclass model declared = inr type ->
     modelManager q = model ->
     runsAt model (accept (thingOfDeclaration type)) q) ->
  modelManager p = model -> runsAt model (visitField accept field) p.
Proof.
  intros Ha Hp. unfold visitField. apply runs_getParameters.
  destruct (hideProperty field p || isHidden field); [by apply runs_ret|].
  apply runs_bind; [by apply runs_modify|]. intros [] q Hq.
  apply runs_getParameters. apply runs_bind.
  - destruct (Property.isArray field);
      [|by apply visitSingletonField_runs].
    apply runs_bind.
    + apply mapValue_runs; [|done]. intros x i r Hr.
      apply runs_bind; [by apply runs_modify|]. intros [] r1 Hr1.
      apply runs_bind; [by apply visitSingletonField_runs|].
      intros child r2 Hr2.
      apply runs_bind; [by apply runs_modify|]. intros [] r3 Hr3.
      by apply runs_ret.
    + intros children r Hr. by apply runs_ret.
  - intros component r Hr.
    apply runs_bind; [by apply runs_modify|]. intros [] r1 Hr1.
    by apply runs_ret.
Qed.

Lemma visitRelationship_runs relationship p :
  modelManager p = model ->
  runsAt model (visitRelationship relationship) p.
Proof.
  intros Hp. unfold visitRelationship. apply runs_getParameters.
  destruct (hideProperty relationship p || isHidden relationship);
    [by apply runs_ret|].
  apply runs_bind; [by apply runs_modify|]. intros [] q Hq.
  apply runs_getParameters. apply runs_bind.
  - destruct (Property.isArray relationship); [|by apply runs_ret].
    destruct (newResource _ _ _ _ _ _) as [message|resource];
      [apply runs_throw|].
    apply runs_bind.
    + apply mapValue_runs; [|done]. intros x i r Hr.
      apply runs_bind; [by apply runs_modify|]. intros [] r1 Hr1.
      apply runs_getParameters.
      apply runs_bind; [by apply runs_modify|]. intros [] r3 Hr3.
      by apply runs_ret.
    + intros children r Hr. by apply runs_ret.
  - intros component r Hr.
    apply runs_bind; [by apply runs_modify|]. intros [] r1 Hr1.
    by apply runs_ret.
Qed.

Lemma ensureFileWriter_runs p :
  modelManager p = model -> runsAt model ensureFileWriter p.
Proof.
  intros Hp. unfold ensureFileWriter. apply runs_getParameters.
  destruct (fileWriter p); [by apply runs_ret | by apply runs_modify].
Qed.
End Termination.

Lemma resolvesTo_target `{Utilities} model c c' :
  resolvesTo model c c' -> c' ∈ targets model.
Proof.
  intros (field & declared & _ & _ & Hd & Hf). unfold targets.
  apply list_elem_of_omap.
  exists (Property.getFullyQualifiedTypeName field, declared). split.
  - by apply elem_of_map_to_list.
  - simpl. by rewrite Hf.
Qed.

Lemma visitWith_runs `{Utilities} `{Libraries} model accept thing p :
  modelManager p = model ->
  (forall q, modelManager q = model ->
     match thing with
     | AnEnumDeclaration _ | ARelationshipDeclaration _ | Unrecognised _ => True
     | AClassDeclaration c => runsAt model (visitClassDeclaration accept c) q
     | AField f => runsAt model (visitField accept f) q
     end) ->
  runsAt model (visitWith accept thing) p.
Proof.
  intros Hp Hk. unfold visitWith.
  apply runs_bind; [by apply ensureFileWriter_runs|]. intros [] q Hq.
  specialize (Hk q Hq). destruct thing; [|done|done| |apply runs_throw].
  - by apply visitEnumDeclaration_runs.
  - by apply visitRelationship_runs.
Qed.

Lemma visit_S `{Utilities} `{Libraries} fuel thing :
  visit (S fuel) thing = visitWith (visit fuel) thing.
Proof. reflexivity. Qed.

(** A class at the end of a path of distinct classes of a finite
    universe: the deeper the path, the less fuel the visit needs. *)
Lemma visit_class_runs `{Utilities} `{Libraries} model
  (universe : list ClassDeclaration.t) :
  acyclicResolved model ->
  (forall c, c ∈ targets model -> c ∈ universe) ->
  forall k n c path,
    NoDup (c :: path) ->
    (forall x, x ∈ c :: path -> x ∈ universe) ->
    (forall x, x ∈ path -> tc (resolvesTo model) x c) ->
    length universe - length (c :: path) <= k ->
    2 * k + 3 <= n ->
    forall q, modelManager q = model ->
      runsAt model (visit n (AClassDeclaration c)) q.
Proof.
  intros Hacyclic Htargets k.
  induction k as [k IH] using lt_wf_ind.
  intros n c path Hnodup Hin Hreach Hk Hn q Hq.
  destruct n as [|[|[|n]]]; [lia..|].
  rewrite visit_S. apply visitWith_runs; [done|]. intros q1 Hq1.
  apply visitClassDeclaration_runs; [|done]. intros member q2 Hmember Hq2.
  rewrite visit_S. apply visitWith_runs; [done|]. intros q3 Hq3.
  destruct member as [field|relationship]; [|done]. cbn [thingOfMember].
  apply visitField_runs; [|done]. intros declared type q4 Hprim Hd Hf Hq4.
  destruct type as [e|c']; cbn [thingOfDeclaration].
  { rewrite visit_S. by apply visitWith_runs. }
  assert (Hedge : resolvesTo model c c') by by exists field, declared.
  assert (Hfresh : c' ∉ c :: path).
  { intros [->|Hc']%elem_of_cons.
    - by apply (Hacyclic c), tc_once.
    - apply (Hacyclic c'). eapply tc_r; [by apply Hreach | done]. }
  assert (Hlen : length (c' :: c :: path) <= length universe).
  { apply submseteq_length, NoDup_submseteq; [by constructor|].
    intros x [->|Hx]%elem_of_cons; [|by apply Hin].
    by eapply Htargets, resolvesTo_target. }
  cbn [length] in Hlen, Hk.
  apply (IH (k - 1)) with (path := c :: path);
    [lia | by constructor | | | cbn [length]; lia | lia | done].
  - intros x [->|Hx]%elem_of_cons; [|by apply Hin].
    by eapply Htargets, resolvesTo_target.
  - intros x [->|Hx]%elem_of_cons; [by apply tc_once|].
    eapply tc_r; [by apply Hreach | done].
Qed.

Lemma target_intro `{Utilities} model name declared c :
  model !! name = Some declared ->
  findConcreteSubclass model declared = inr (ClassDecl c) ->
  c ∈ targets model.
Proof.
  intros Hd Hf. unfold targets. apply list_elem_of_omap.
  exists (name, declared). split; [by apply elem_of_map_to_list|].
  simpl. by rewrite Hf.
Qed.

Lemma runsAt_terminates {A : Type} model (m : Visit A) p :
  runsAt model m p -> terminates (m p).
Proof. unfold runsAt, wp, terminates. by destruct (m p). Qed.

Lemma length_omap_le {A B : Type} (f : A -> option B) (l : list A) :
  length (omap f l) <= length l.
Proof.
  induction l as [|x l IH]; csimpl; [done|]. destruct (f x); csimpl; lia.
Qed.

(** A model has no more targets than declarations. *)
Lemma targets_size `{Utilities} (model : gmap string Declaration) :
  length (targets model) <= size model.
Proof.
  unfold targets. rewrite <- length_map_to_list. apply length_omap_le.
Qed.

(** C9, as the code has it: when no class is reachable from itself
    through the classes that the visitor enters for the non-primitive
    fields (the declared type, or the concrete subclass put in its
    place), [visit] terminates, by a return or by an exception, and calls
    of [visit] are never nested deeper than twice the number of
    declarations of the model plus six: every budget of nested calls from
    that number on lets the visit end. *)
Theorem visit_terminates `{Utilities} `{Libraries}
  (thing : Thing) (p : TraversalContext) :
  acyclicResolved (modelManager p) ->
  forall fuel,
    2 * size (modelManager p) + 6 <= fuel ->
    terminates (visit fuel thing p).
Proof.
  intros Hacyclic fuel Hfuel. set (model := modelManager p) in *.
  pose proof (targets_size model) as Hsize.
  apply (runsAt_terminates model).
  destruct thing as [e|c|f|r|v].
  - destruct fuel as [|fuel]; [lia|]. rewrite visit_S.
    by apply visitWith_runs.
  - apply (visit_class_runs model (c :: targets model) Hacyclic)
      with (k := S (length (targets model))) (path := []);
      [by right | apply NoDup_singleton | | by intros x ?%elem_of_nil
      | simpl; lia | lia | done].
    intros x ->%list_elem_of_singleton. by left.
  - destruct fuel as [|fuel]; [lia|]. rewrite visit_S.
    apply visitWith_runs; [done|]. intros q Hq.
    apply visitField_runs; [|done]. intros declared type q' _ Hd Hf Hq'.
    destruct type as [e|c]; cbn [thingOfDeclaration].
    { destruct fuel as [|fuel]; [lia|]. rewrite visit_S.
      by apply visitWith_runs. }
    apply (visit_class_runs model (targets model) Hacyclic)
      with (k := length (targets model)) (path := []);
      [done | apply NoDup_singleton | | by intros x ?%elem_of_nil
      | simpl; lia | lia | done].
    intros x ->%list_elem_of_singleton. by eapply target_intro.
  - destruct fuel as [|fuel]; [lia|]. rewrite visit_S.
    by apply visitWith_runs.
  - destruct fuel as [|fuel]; [lia|]. rewrite visit_S.
    by apply visitWith_runs.
Qed.

Lemma tc_first {A : Type} (R : relation A) x y : tc R x y -> exists z, R x z.
Proof. intros [x' y' HR|x' z y' HR _]; [by exists y' | by exists z]. Qed.

Lemma tc_last {A : Type} (R : relation A) x y : tc R x y -> exists z, R z y.
Proof. induction 1 as [x y HR|x z y _ _ IH]; [by exists x | done]. Qed.

Lemma sample_model_acyclic : acyclicResolved Sample.model.
Proof.
  intros c Hc.
  destruct (tc_last _ _ _ Hc) as (x & Hx%resolvesTo_target).
  destruct (tc_first _ _ _ Hc) as (z & field & declared & Hin & _).
  assert (Ht : targets Sample.model = [Sample.customer])
    by (vm_compute; reflexivity).
  rewrite Ht in Hx. apply list_elem_of_singleton in Hx as ->.
  by apply elem_of_nil in Hin.
Qed.

Lemma visit_terminates_witness :
  size Sample.model = 2
  /\ terminates (visit 10 (AField Sample.customers)
                   (Sample.parameters Sample.order Sample.model)).
Proof.
  split; [vm_compute; reflexivity|].
  apply (visit_terminates (AField Sample.customers)
           (Sample.parameters Sample.order Sample.model)
           sample_model_acyclic 10).
  vm_compute. done.
Defined.


Lemma inShapes_withFileWriter q : inShapes q -> inShapes (withFileWriter q).
Proof. unfold inShapes, withFileWriter. by destruct (fileWriter q). Qed.

Lemma container_exhausts (c : ClassDeclaration.t) (field : Property.t) fuel q :
  inShapes q ->
  ClassDeclaration.isAbstract c = false ->
  includes monetaryAmountNames (ClassDeclaration.getFullyQualifiedName c) = false ->
  includes durationNames (ClassDeclaration.getFullyQualifiedName c) = false ->
  includes accordPartyNames (ClassDeclaration.getFullyQualifiedName c) = false ->
  ClassDeclaration.getProperties c = [Field field] ->
  visit fuel (AField field) (withFileWriter q) = OutOfFuel ->
  visit (S fuel) (AClassDeclaration c) q = OutOfFuel.
Proof.
  intros Hq Ha Hm Hd Hp Hc Hv.
  apply inShapes_withFileWriter in Hq as (_ & _ & Hh).
  rewrite visit_S, visitWith_run.
  unfold visitClassDeclaration, hideIdentifier.
  rewrite !bind_run. unfold getParameters at 1. cbv beta iota.
  rewrite Hh, Ha, Hm, Hd, Hp, Hc. cbn. by rewrite !bind_run, Hv.
Qed.

Lemma shapeField_exhausts owner name fuel q :
  inShapes q ->
  (forall q', inShapes q' ->
     visit fuel (AClassDeclaration Sample.group) q' = OutOfFuel) ->
  visit (S fuel) (AField (Sample.shapeField owner name)) q = OutOfFuel.
Proof.
  intros Hq Hv. apply inShapes_withFileWriter in Hq.
  rewrite visit_S, visitWith_run. set (q1 := withFileWriter q) in *.
  destruct Hq as (Hm & Hf & Hh).
  unfold visitField. rewrite bind_run. unfold getParameters at 1.
  cbv beta iota. unfold hideProperty. rewrite Hf.
  change (isHidden (Sample.shapeField owner name)) with false.
  cbn [orb]. rewrite bind_run. unfold push at 1, modify at 1.
  cbv beta iota. rewrite bind_run. unfold getParameters at 1.
  cbv beta iota. cbn [Property.isArray Sample.shapeField].
  rewrite bind_run. unfold visitSingletonField.
  rewrite bind_run. unfold getParameters at 1. cbv beta iota.
  cbn [Property.isPrimitive Property.getFullyQualifiedTypeName
       Sample.shapeField modelManager setStack].
  rewrite Hm.
  change (Sample.shapes !! "org.example.Shape")
    with (Some (ClassDecl Sample.shape)).
  cbv beta iota.
  change (findConcreteSubclass Sample.shapes (ClassDecl Sample.shape))
    with (inr (A:=string) (ClassDecl Sample.group)).
  cbv beta iota. cbn [thingOfDeclaration].
  rewrite bind_run, Hv; [done|]. by repeat split.
Qed.

Lemma shapes_exhaust fuel :
  (forall q, inShapes q ->
     visit fuel (AClassDeclaration Sample.group) q = OutOfFuel)
  /\ (forall owner name q, inShapes q ->
       visit fuel (AField (Sample.shapeField owner name)) q = OutOfFuel).
Proof.
  induction fuel as [|fuel [IHc IHf]]; [done|]. split.
  - intros q Hq.
    apply (container_exhausts Sample.group
             (Sample.shapeField "org.example.Group" "inner") fuel q Hq);
      try done.
    by apply IHf, inShapes_withFileWriter.
  - intros owner name q Hq. by apply shapeField_exhausts.
Qed.

Lemma shapes_refersTo c c' :
  refersTo Sample.shapes c c' ->
  c' = Sample.shape /\ ClassDeclaration.getProperties c <> [].
Proof.
  intros [(name & Hc) (member & Hin & Hm)]. split.
  - unfold Sample.shapes in Hc.
    apply lookup_insert_Some in Hc as [[_ Hc]|[_ Hc]];
      [injection Hc as <-; by apply elem_of_nil in Hin|].
    apply lookup_insert_Some in Hc as [[_ Hc]|[_ Hc]].
    { injection Hc as <-. apply list_elem_of_singleton in Hin as ->.
      vm_compute in Hm. by injection Hm as <-. }
    apply lookup_singleton_Some in Hc as [_ Hc].
    injection Hc as <-. apply list_elem_of_singleton in Hin as ->.
    vm_compute in Hm. by injection Hm as <-.
  - intros Hp. rewrite Hp in Hin. by apply elem_of_nil in Hin.
Qed.

(** C9 as stated fails where an abstract type is replaced by a concrete
    subclass that refers back to it: in the sample schema no class is
    reachable from itself through type references (Root and Group refer to
    Shape, which has no fields), and yet the visit of Root never ends:
    Shape resolves to Group, whose field resolves to Group again. *)
Lemma acyclic_schema_diverges :
  acyclicDeclared Sample.shapes
  /\ forall fuel,
       visit fuel (AClassDeclaration Sample.root)
         (Sample.parameters Sample.order Sample.shapes) = OutOfFuel.
Proof.
  split.
  - intros c Hc.
    destruct (tc_first _ _ _ Hc) as (z & [_ Hne]%shapes_refersTo).
    destruct (tc_last _ _ _ Hc) as (x & [-> _]%shapes_refersTo).
    done.
  - intros [|fuel]; [done|].
    apply (container_exhausts Sample.root
             (Sample.shapeField "org.example.Root" "shape")); try done.
    by apply shapes_exhaust.
Qed.

(** ** A frame rule for every relation that the four assignments keep *)

Section Frames.
Context `{Utilities} `{Libraries}.
Variable R : relation TraversalContext.
Variable accept : Thing -> Visit Element.

Hypothesis R_refl : forall p, R p p.
Hypothesis R_trans : forall p q r, R p q -> R q r -> R p r.
Hypothesis R_setStack : forall s p, R p (setStack s p).
Hypothesis R_setSkipLabel : forall b p, R p (setSkipLabel b p).
Hypothesis R_setFileWriter : forall p,
  fileWriter p = None -> R p (setFileWriter (Some NewWriter) p).
Hypothesis R_setHiddenFields : forall l p,
  hideIdentifiers p = true ->
  R p (setHiddenFields (Some (hiddenNames p ++ l)%list) p).

Hypothesis accept_framed : forall thing p, framed R p p (accept thing).

Lemma framed_ret {A : Type} (a : A) p0 p : R p0 p -> framed R p0 p (mret a).
Proof. intros Hs. by apply wp_ret. Qed.

Lemma framed_throw {A : Type} e p0 p :
  R p0 p -> framed R p0 p (throw (A:=A) e).
Proof. intros Hs. by apply wp_throw. Qed.

Lemma framed_bind {A B : Type} (m : Visit A) (k : A -> Visit B) p0 p :
  framed R p0 p m ->
  (forall a q, stack q = stack p -> R p0 q -> framed R p0 q (k a)) ->
  framed R p0 p (m ≫= k).
Proof.
  intros Hm Hk. apply wp_bind. eapply wp_mono; [apply Hm | | done..].
  intros a q [Hst Hq]. eapply wp_mono; [by apply Hk | | | done].
  - intros b r [Hst' Hr]. split; [congruence | done].
  - intros e r [Hst' Hr]. split; [by rewrite <-Hst | done].
Qed.

Lemma framed_getParameters {B : Type} (k : TraversalContext -> Visit B) p0 p :
  framed R p0 p (k p) -> framed R p0 p (getParameters ≫= k).
Proof. intros Hk. by apply wp_bind, wp_getParameters. Qed.

Lemma framed_setSkipLabel b p0 p :
  R p0 p -> framed R p0 p (modify (setSkipLabel b)).
Proof. intros Hs. apply wp_modify. split; [done | by eapply R_trans]. Qed.

Lemma framed_mapWithIndex {A B : Type} (f : A -> nat -> Visit B) l p0 :
  (forall x i q, R p0 q -> framed R p0 q (f x i)) ->
  forall i p, R p0 p -> framed R p0 p (mapWithIndex f i l).
Proof.
  intros Hf. induction l as [|x l IH]; intros i p Hs; simpl.
  - by apply framed_ret.
  - apply framed_bind; [by apply Hf|]. intros b q Hst Hq.
    apply framed_bind; [by apply IH|]. intros bs r Hst' Hr.
    by apply framed_ret.
Qed.

Lemma accept_framed_from thing p0 p : R p0 p -> framed R p0 p (accept thing).
Proof.
  intros Hs. eapply wp_mono; [apply accept_framed | | | done].
  - intros a q [Hst Hq]. split; [done | by eapply R_trans].
  - intros e q [Hst Hq]. split; [done | by eapply R_trans].
Qed.

Lemma acceptMember_framed props i p0 p :
  R p0 p -> framed R p0 p (acceptMember accept props i).
Proof.
  intros Hs. unfold acceptMember. destruct (props !! i) as [m|].
  - by apply accept_framed_from.
  - by apply framed_throw.
Qed.

Lemma visitMonetaryAmount_framed c p0 p :
  R p0 p -> framed R p0 p (visitMonetaryAmount accept c).
Proof.
  intros Hs. unfold visitMonetaryAmount.
  apply framed_bind; [by apply framed_setSkipLabel|]. intros [] q1 Hst1 Hq1.
  apply framed_bind; [by apply acceptMember_framed|]. intros e1 q2 Hst2 Hq2.
  apply framed_bind; [by apply acceptMember_framed|]. intros e2 q3 Hst3 Hq3.
  apply framed_bind; [by apply framed_setSkipLabel|]. intros [] q4 Hst4 Hq4.
  by apply framed_ret.
Qed.

Lemma visitDuration_framed c p0 p :
  R p0 p -> framed R p0 p (visitDuration accept c).
Proof.
  intros Hs. unfold visitDuration.
  apply framed_bind; [by apply framed_setSkipLabel|]. intros [] q1 Hst1 Hq1.
  apply framed_bind; [by apply acceptMember_framed|]. intros e1 q2 Hst2 Hq2.
  apply framed_bind; [by apply acceptMember_framed|]. intros e2 q3 Hst3 Hq3.
  apply framed_bind; [by apply framed_setSkipLabel|]. intros [] q4 Hst4 Hq4.
  by apply framed_ret.
Qed.

Lemma visitAccordParty_framed c p0 p :
  R p0 p -> framed R p0 p (visitAccordParty accept c).
Proof.
  intros Hs. unfold visitAccordParty.
  apply framed_bind; [by apply framed_setSkipLabel|]. intros [] q1 Hst1 Hq1.
  apply framed_bind; [by apply acceptMember_framed|]. intros e1 q2 Hst2 Hq2.
  apply framed_bind; [by apply framed_setSkipLabel|]. intros [] q4 Hst4 Hq4.
  by apply framed_ret.
Qed.

Lemma hideIdentifier_framed c p0 p :
  R p0 p -> framed R p0 p (hideIdentifier c).
Proof.
  intros Hs. unfold hideIdentifier, framed, wp.
  unfold mbind, Visit_bind, getParameters.
  destruct (hideIdentifiers p) eqn:Hh; [|done].
  assert (Hinit : R p0 (setHiddenFields (Some []) p) \/ hiddenFields p <> None).
  { destruct (hiddenFields p) as [names|] eqn:Eh; [by right | left].
    pose proof (R_setHiddenFields [] p Hh) as HR. unfold hiddenNames in HR.
    rewrite Eh in HR. by eapply R_trans. }
  destruct (truthyString _) as [name|].
  - destruct (ClassDeclaration.getProperty c name) as [idField|].
    + pose proof (R_setHiddenFields
        [Property.getFullyQualifiedName (memberProperty idField)] p Hh) as HR.
      unfold hiddenNames in HR.
      destruct (hiddenFields p) as [names|] eqn:Eh; unfold modify; simpl;
        rewrite ?Eh; (split; [done | by eapply R_trans]).
    + destruct (hiddenFields p) as [names|] eqn:Eh; unfold modify, throw;
        simpl; [done|]. by destruct Hinit.
  - destruct (hiddenFields p) as [names|] eqn:Eh; unfold modify; simpl;
      [done|]. by destruct Hinit.
Qed.

Lemma visitClassDeclaration_framed c p0 p :
  R p0 p -> framed R p0 p (visitClassDeclaration accept c).
Proof.
  intros Hs. unfold visitClassDeclaration.
  apply framed_bind; [by apply hideIdentifier_framed|]. intros [] q Hst Hq.
  destruct (ClassDeclaration.isAbstract c); [by apply framed_ret|].
  destruct (includes monetaryAmountNames _);
    [by apply visitMonetaryAmount_framed|].
  destruct (includes durationNames _); [by apply visitDuration_framed|].
  destruct (includes accordPartyNames _); [by apply visitAccordParty_framed|].
  apply framed_bind.
  - apply framed_mapWithIndex; [|done]. intros m i r Hr.
    by apply accept_framed_from.
  - intros es r Hst' Hr. by apply framed_ret.
Qed.

Lemma visitEnumDeclaration_framed e p0 p :
  R p0 p -> framed R p0 p (visitEnumDeclaration e).
Proof.
  intros Hs. unfold visitEnumDeclaration. apply framed_getParameters.
  by apply framed_ret.
Qed.

Lemma visitSingletonField_framed field props p0 p :
  R p0 p -> framed R p0 p (visitSingletonField accept field props).
Proof.
  intros Hs. unfold visitSingletonField. apply framed_getParameters.
  destruct (Property.isPrimitive field).
  - destruct (String.eqb _ "Boolean"); [by apply framed_ret|].
    destruct (String.eqb _ "datetime-local"); [by apply framed_ret|].
    destruct (truthyString _) as [key|]; [|by apply framed_ret].
    destruct (selectorOptions p key);
      [by apply framed_ret | by apply framed_throw | by apply framed_throw].
  - destruct (modelManager p !! _) as [declared|]; [|by apply framed_throw].
    destruct (findConcreteSubclass _ declared) as [message|type];
      [by apply framed_throw|].
    apply framed_bind; [by apply accept_framed_from|].
    intros child r Hst Hr. by apply framed_ret.
Qed.

(** [stack.push(x)] opens a scope: what runs inside returns with the
    stack popped, or throws with [x] still on it. *)
Lemma framed_push {A : Type} x (m : Visit A) p0 p :
  R p0 p ->
  (forall q, stack q = (stack p ++ [x])%list -> R p0 q ->
     wp m (fun _ p' => stack p' = stack p /\ R p0 p')
          (fun _ p' => stack q `prefix_of` stack p' /\ R p0 p') True q) ->
  wp (push x;; m)
     (fun _ p' => stack p' = stack p /\ R p0 p')
     (fun _ p' => (stack p ++ [x])%list `prefix_of` stack p' /\ R p0 p')
     True p.
Proof.
  intros Hs Hm. apply wp_bind, wp_modify.
  eapply wp_mono; [apply Hm; [done | by eapply R_trans] | done | | done].
  intros e q [Hst Hq]. by split.
Qed.

Lemma framed_pop {A B : Type} (m : Visit A) (g : A -> B) p0 q s x :
  stack q = (s ++ [x])%list -> R p0 q -> framed R p0 q m ->
  wp (c ← m; pop;; mret (g c))
     (fun _ p' => stack p' = s /\ R p0 p')
     (fun _ p' => stack q `prefix_of` stack p' /\ R p0 p') True q.
Proof.
  intros Hst Hs Hm. apply wp_bind. eapply wp_mono; [apply Hm | | done..].
  intros c r [Hst' Hr]. apply wp_bind, wp_modify, wp_ret. split.
  - simpl. by rewrite Hst', Hst, removelast_snoc.
  - by eapply R_trans.
Qed.

Lemma mapValue_framed value callback p0 p :
  (forall x i q, R p0 q -> framed R p0 q (callback x i)) ->
  R p0 p -> framed R p0 p (mapValue value callback).
Proof.
  intros Hc Hs. unfold mapValue.
  destruct (truthy value); [|by apply framed_ret].
  destruct value as [[| | | |items|]|]; try by apply framed_throw.
  apply framed_bind; [by apply framed_mapWithIndex|].
  intros es q Hst Hq. by apply framed_ret.
Qed.

Lemma prefix_snoc_l {A : Type} (l k : list A) x :
  (l ++ [x])%list `prefix_of` k -> l `prefix_of` k.
Proof. intros [k' ->]. rewrite <-app_assoc. by apply prefix_app_r. Qed.

(** A scope inside a scope: the inner one throws with both segments on
    the stack. *)
Lemma framed_scope {A : Type} x (m : Visit A) p0 p :
  R p0 p ->
  (forall q, stack q = (stack p ++ [x])%list -> R p0 q ->
     wp m (fun _ p' => stack p' = stack p /\ R p0 p')
          (fun _ p' => stack q `prefix_of` stack p' /\ R p0 p') True q) ->
  framed R p0 p (push x;; m).
Proof.
  intros Hs Hm. eapply wp_mono; [by apply framed_push | done | | done].
  intros e q [Hst Hq]. split; [by eapply prefix_snoc_l | done].
Qed.

Lemma visitField_framed_strict field p0 p :
  R p0 p ->
  wp (visitField accept field)
     (fun _ p' => stack p' = stack p /\ R p0 p')
     (fun _ p' =>
        (stack p ++ [Name (Property.getName field)])%list `prefix_of` stack p'
        /\ R p0 p')
     True p.
Proof.
  intros Hs. unfold visitField. apply wp_bind, wp_getParameters.
  destruct (hideProperty field p || isHidden field); [by apply wp_ret|].
  apply framed_push; [done|]. intros q Hst Hq.
  apply wp_bind, wp_getParameters.
  eapply (framed_pop _ (fun c => c)); [exact Hst | exact Hq |].
  destruct (Property.isArray field).
  - apply framed_bind.
    + apply mapValue_framed; [|done]. intros x i r Hr.
      apply framed_scope; [done|]. intros r' Hst' Hr'.
      apply (framed_pop _ _ _ _ _ _ Hst' Hr').
      by apply visitSingletonField_framed.
    + intros children r Hst' Hr. by apply framed_ret.
  - by apply visitSingletonField_framed.
Qed.

Lemma visitRelationship_framed_strict relationship p0 p :
  R p0 p ->
  wp (visitRelationship relationship)
     (fun _ p' => stack p' = stack p /\ R p0 p')
     (fun _ p' =>
        (stack p ++ [Name (Property.getName relationship)])%list
          `prefix_of` stack p'
        /\ R p0 p')
     True p.
Proof.
  intros Hs. unfold visitRelationship. apply wp_bind, wp_getParameters.
  destruct (hideProperty relationship p || isHidden relationship);
    [by apply wp_ret|].
  apply framed_push; [done|]. intros q Hst Hq.
  apply wp_bind, wp_getParameters.
  eapply (framed_pop _ (fun c => c)); [exact Hst | exact Hq |].
  destruct (Property.isArray relationship); [|by apply framed_ret].
  destruct (newResource _ _ _ _ _ _) as [message|resource];
    [by apply framed_throw|].
  apply framed_bind.
  - apply mapValue_framed; [|done]. intros x i r Hr.
    apply framed_scope; [done|]. intros r' Hst' Hr'.
    apply wp_bind, wp_getParameters, wp_bind, wp_modify, wp_ret. split.
    + simpl. by rewrite Hst', removelast_snoc.
    + by eapply R_trans.
  - intros children r Hst' Hr. by apply framed_ret.
Qed.

Lemma visitWith_framed thing p : framed R p p (visitWith accept thing).
Proof.
  unfold visitWith. apply framed_bind.
  - unfold ensureFileWriter. apply framed_getParameters.
    destruct (fileWriter p) eqn:Ew; [by apply framed_ret|].
    apply wp_modify. split; [done | by apply R_setFileWriter].
  - intros [] q Hst Hq. destruct thing as [e|c|f|r|v].
    + by apply visitEnumDeclaration_framed.
    + by apply visitClassDeclaration_framed.
    + eapply wp_mono; [by apply visitField_framed_strict | done | | done].
      intros e r [Hp Hr]. split; [by eapply prefix_snoc_l | done].
    + eapply wp_mono;
        [by apply visitRelationship_framed_strict | done | | done].
      intros e r' [Hp Hr]. split; [by eapply prefix_snoc_l | done].
    + by apply framed_throw.
Qed.
End Frames.

Lemma visit_framed `{Utilities} `{Libraries} (R : relation TraversalContext) :
  (forall p, R p p) ->
  (forall p q r, R p q -> R q r -> R p r) ->
  (forall s p, R p (setStack s p)) ->
  (forall b p, R p (setSkipLabel b p)) ->
  (forall p, fileWriter p = None -> R p (setFileWriter (Some NewWriter) p)) ->
  (forall l p, hideIdentifiers p = true ->
     R p (setHiddenFields (Some (hiddenNames p ++ l)%list) p)) ->
  forall fuel thing p, framed R p p (visit fuel thing).
Proof.
  intros Hrefl Htrans Hstack Hskip Hwriter Hhidden fuel.
  induction fuel as [|fuel IH]; intros thing p; [done|].
  by apply visitWith_framed.
Qed.

Lemma framed_final {A : Type} (R : relation TraversalContext)
  (m : Visit A) p p' :
  framed R p p m -> finalParameters (m p) = Some p' -> R p p'.
Proof.
  unfold framed, wp. destruct (m p) as [a q|e q|]; [| |done];
    intros [_ HR] [= <-]; done.
Qed.

(** ** Array containers: the outcomes of the visit *)

(** The loop of [Array.prototype.map] over a callback that may throw: it
    returns one result per element when every call returns, and stops at
    the first call that does not. *)
Lemma mapWithIndex_cases {A B : Type} (f : A -> nat -> Visit B)
  (I : TraversalContext -> Prop) (P : nat -> B -> Prop)
  (E : nat -> Error -> TraversalContext -> Prop) (D : nat -> Prop)
  (l : list A) :
  (forall x i q, I q ->
     match f x i q with
     | Returned b q' => I q' /\ P i b
     | Threw e q' => E i e q'
     | OutOfFuel => D i
     end) ->
  forall i q, I q ->
    match mapWithIndex f i l q with
    | Returned bs q' =>
        I q' /\ length bs = length l
        /\ forall k b, bs !! k = Some b -> P (i + k) b
    | Threw e q' => exists k, k < length l /\ E (i + k) e q'
    | OutOfFuel => exists k, k < length l /\ D (i + k)
    end.
Proof.
  intros Hf. induction l as [|x l IH]; intros i q Hq; simpl.
  - repeat split; [done|]. intros k b Hk. by destruct k.
  - rewrite bind_run. specialize (Hf x i q Hq).
    destruct (f x i q) as [b q1|e q1|].
    + destruct Hf as [Hq1 HP]. rewrite bind_run.
      specialize (IH (S i) q1 Hq1).
      destruct (mapWithIndex f (S i) l q1) as [bs q2|e q2|].
      * destruct IH as (Hq2 & Hlen & Hall).
        repeat split; [done | simpl; by rewrite Hlen |].
        intros [|k] c Hc; simpl in Hc.
        -- injection Hc as <-. by rewrite Nat.add_0_r.
        -- replace (i + S k) with (S i + k) by lia. by apply Hall.
      * destruct IH as (k & Hk & He). exists (S k).
        split; [lia|]. by replace (i + S k) with (S i + k) by lia.
      * destruct IH as (k & Hk & Hd). exists (S k).
        split; [lia|]. by replace (i + S k) with (S i + k) by lia.
    + exists 0. split; [lia|]. by rewrite Nat.add_0_r.
    + exists 0. split; [lia|]. by rewrite Nat.add_0_r.
Qed.

Lemma visitSingletonField_configuration `{Utilities} `{Libraries}
  fuel field props p q :
  configuration q = configuration p ->
  framed (fun r r' => configuration r' = configuration r) p q
    (visitSingletonField (visit fuel) field props).
Proof.
  intros Hq. apply visitSingletonField_framed; [congruence | | done].
  intros thing r. apply visit_framed; try done. congruence.
Qed.

Lemma visitRelationship_array_error `{Utilities} `{Libraries}
  (relationship : Property.t) (p : TraversalContext) (message : string) :
  let path := (stack p ++ [Name (Property.getName relationship)])%list in
  hideProperty relationship p || isHidden relationship = false ->
  Property.isArray relationship = true ->
  newResource (modelManager p) (Property.getNamespace relationship)
    (Property.getType relationship) "resource1"
    (includeOptionalFields p) (includeSampleData p) = inl message ->
  visitRelationship relationship p
  = Threw (LibraryError message) (setStack path p).
Proof.
  intros path Hh Ha Hn. unfold visitRelationship.
  rewrite bind_run. unfold getParameters at 1. cbv beta iota. rewrite Hh.
  rewrite bind_run. unfold push at 1, modify at 1. cbv beta iota.
  rewrite bind_run. unfold getParameters at 1. cbv beta iota.
  rewrite Ha. cbn [stack json setStack modelManager includeOptionalFields
                   includeSampleData]. by rewrite Hn.
Qed.

(** C6, as the code has it: an array-valued field or relationship that
    is not hidden, and whose document value at its path is an array of N
    entries.  [visitField] returns an array container with N element
    wrappers, unless the widget of one of the entries throws (or does not
    end): the visit then throws that very error, from the context the
    widget left.  [visitRelationship] returns an array container with N
    element wrappers when the factory creates the sample resource, and
    throws the error of the factory otherwise.  The wrapper of entry [i]
    carries the index [i] and the props of the container, whose id is the
    path of the field; its key is the name of the field followed by
    ["_wrapper[i]"] for a field, and ["relationship-"], the path of the
    entry, ["-"] and [i] for a relationship.  It wraps the widget rendered
    with the path stack at the path of the field followed by [i], in a
    context with the configuration of entry.  The add affordance passes
    the default value of the field, respectively the URI of the sample
    resource, as the value of the new element. *)
Theorem array_container `{Utilities} `{Libraries}
  (fuel : nat) (property : Property.t) (p : TraversalContext)
  (items : list Json) :
  let path := (stack p ++ [Name (Property.getName property)])%list in
  hideProperty property p || isHidden property = false ->
  Property.isArray property = true ->
  get (json p) (pathToString path) = Some (JArray items) ->
  (exists props,
     propsId props = pathToString path
     /\ match visitField (visit fuel) property p with
        | Returned component p' =>
            exists wrappers,
              component =
                ConcertoArray (Property.getName property +:+ "_wrapper") props
                  (AddDefaultValue (addElement p) property) (Some wrappers)
              /\ length wrappers = length items
              /\ forall i, i < length items ->
                   exists child q q',
                     wrappers !! i =
                       Some (ConcertoArrayElement
                               (Property.getName property +:+ "_wrapper["
                                  +:+ numberToString i +:+ "]")
                               props i child)
                     /\ stack q = (path ++ [Index i])%list
                     /\ configuration q = configuration p
                     /\ visitSingletonField (visit fuel) property props q
                        = Returned child q'
        | Threw e p' =>
            exists i q,
              i < length items
              /\ stack q = (path ++ [Index i])%list
              /\ configuration q = configuration p
              /\ visitSingletonField (visit fuel) property props q
                 = Threw e p'
        | OutOfFuel =>
            exists i q,
              i < length items
              /\ stack q = (path ++ [Index i])%list
              /\ configuration q = configuration p
              /\ visitSingletonField (visit fuel) property props q
                 = OutOfFuel
        end)
  /\ (forall q event id,
        invokeAddElement (AddDefaultValue (addElement p) property) q event id
        = (addElement p, event, id, getDefaultValue property q))
  /\ (exists props,
        propsId props = pathToString path
        /\ match newResource (modelManager p) (Property.getNamespace property)
                   (Property.getType property) "resource1"
                   (includeOptionalFields p) (includeSampleData p) with
           | inr resource =>
               exists wrappers,
                 visitRelationship property p =
                   Returned
                     (ConcertoArray (pathToString path) props
                        (AddResourceURI (addElement p) resource)
                        (Some wrappers)) p
                 /\ length wrappers = length items
                 /\ (forall i, i < length items ->
                      let key := pathToString (path ++ [Index i]) in
                      wrappers !! i =
                        Some (ConcertoArrayElement
                                ("relationship-" +:+ key +:+ "-"
                                   +:+ numberToString i)
                                props i
                                (ConcertoRelationship None
                                   (withIdValue props key (get (json p) key)))))
                 /\ (forall q event id,
                      invokeAddElement
                        (AddResourceURI (addElement p) resource) q event id
                      = (addElement p, event, id,
                         Some (JString (toURI resource))))
           | inl message =>
               visitRelationship property p
               = Threw (LibraryError message) (setStack path p)
           end).
Proof.
  intros path Hh Ha Hv. split; [|split; [done|]].
  - unfold visitField.
    rewrite bind_run. unfold getParameters at 1. cbv beta iota. rewrite Hh.
    rewrite bind_run. unfold push at 1, modify at 1. cbv beta iota.
    rewrite bind_run. unfold getParameters at 1. cbv beta iota.
    rewrite Ha. cbn [stack json setStack]. fold path. rewrite Hv.
    set (props := {| propsSkipLabel := skipLabel p || true;
                     propsId := pathToString path |}).
    exists props. split; [done|].
    unfold mapValue. cbn [truthy].
    set (callback := fun (_ : Json) (index : nat) => (push (Index index) ≫= _)).
    pose proof (mapWithIndex_cases callback
      (fun q => stack q = path /\ configuration q = configuration p)
      (fun i wrapper =>
         exists child q q',
           wrapper =
             ConcertoArrayElement
               (Property.getName property +:+ "_wrapper["
                  +:+ numberToString i +:+ "]")
               props i child
           /\ stack q = (path ++ [Index i])%list
           /\ configuration q = configuration p
           /\ visitSingletonField (visit fuel) property props q
              = Returned child q')
      (fun i e p' =>
         exists q,
           stack q = (path ++ [Index i])%list
           /\ configuration q = configuration p
           /\ visitSingletonField (visit fuel) property props q = Threw e p')
      (fun i =>
         exists q,
           stack q = (path ++ [Index i])%list
           /\ configuration q = configuration p
           /\ visitSingletonField (visit fuel) property props q = OutOfFuel)
      items) as Hcases.
    specialize (Hcases ltac:(
      intros x i q [Hst Hq]; subst callback; cbv beta;
      rewrite bind_run; unfold push at 1, modify at 1; cbv beta iota;
      set (q1 := setStack (stack q ++ [Index i]) q);
      assert (Hst1 : stack q1 = (path ++ [Index i])%list)
        by (simpl; by rewrite Hst);
      assert (Hq1 : configuration q1 = configuration p) by done;
      pose proof (visitSingletonField_configuration fuel property props
                    p q1 Hq1) as Hs;
      unfold framed, wp in Hs; rewrite bind_run;
      destruct (visitSingletonField (visit fuel) property props q1)
        as [child q2|e q2|] eqn:Hc;
        [ destruct Hs as [Hst2 Hq2]; rewrite bind_run;
          unfold pop at 1, modify at 1; cbv beta iota;
          split; [split; [simpl; by rewrite Hst2, Hst1, removelast_snoc|done]|];
          by exists child, q1, q2
        | by exists q1
        | by exists q1 ]) 0 (setStack path p) (conj eq_refl eq_refl)).
    rewrite !bind_run.
    destruct (mapWithIndex callback 0 items (setStack path p))
      as [wrappers q'|e q'|].
    + destruct Hcases as (_ & Hlen & Hall). cbv beta iota.
      exists wrappers. split; [done|]. split; [done|]. intros i Hi.
      destruct (lookup_lt_is_Some_2 wrappers i) as [wrapper Hlk]; [lia|].
      destruct (Hall i wrapper Hlk) as (child & q & q2 & -> & ?).
      by exists child, q, q2.
    + destruct Hcases as (i & Hi & q & ?). by exists i, q.
    + destruct Hcases as (i & Hi & q & ?). by exists i, q.
  - destruct (newResource _ _ _ _ _ _) as [message|resource] eqn:Hn.
    + exists {| propsSkipLabel := skipLabel p || true;
                propsId := pathToString path;
                propsField := RelationshipDeclaration property;
                propsValue := Some (JArray items);
                propsType := "text";
                propsRequired := negb (Property.isOptional property);
                propsReadOnly := disabled p;
                propsTextOnly := textOnly p;
                propsAddElement := addElement p;
                propsRemoveElement := removeElement p;
                propsOnFieldValueChange := onFieldValueChange p;
                propsRelationshipProvider := relationshipProvider p |}.
      split; [done|]. by apply visitRelationship_array_error.
    + destruct (visitRelationship_array property p items resource Hh Ha Hv Hn)
        as (props & Hid & Hr).
      exists props. split; [done|].
      eexists. split; [exact Hr|].
      split; [by rewrite length_imap|]. split; [|done].
      intros i Hi key. rewrite list_lookup_imap.
      destruct (lookup_lt_is_Some_2 items i Hi) as [item ->]. done.
Qed.

Lemma array_container_witness :
  let p := setCustomSelectors (Some Sample.currencies)
             (Sample.parameters Sample.order Sample.model) in
  exists props wrappers p',
    visitField (visit 0) Sample.selectedTags p
    = Returned
        (ConcertoArray "tags_wrapper" props
           (AddDefaultValue (Handler "addElement") Sample.selectedTags)
           (Some wrappers))
        p'
    /\ length wrappers = 2.
Proof.
  intros p.
  destruct (array_container 0 Sample.selectedTags p
              [JString "new"; JString "paid"])
    as [(props & _ & Hf) _]; [reflexivity..|].
  destruct (visitField (visit 0) Sample.selectedTags p)
    as [component p'|e p'|] eqn:Hv; [|by vm_compute in Hv..].
  destruct Hf as (wrappers & -> & Hlen & _).
  by exists props, wrappers, p'.
Defined.

(** C6 as stated fails on the keys of the wrappers: for the field [tags]
    at the root of the document, the wrappers of the two entries are keyed
    ["tags_wrapper[0]"] and ["tags_wrapper[1]"], and their id is the path
    ["tags"] of the field, where the path of the field followed by the
    index is ["tags[0]"] and ["tags[1]"]. *)
Lemma array_wrapper_keys :
  exists props closure wrappers p',
    visitField (visit 0) Sample.tags (Sample.parameters Sample.order Sample.model)
    = Returned (ConcertoArray "tags_wrapper" props closure (Some wrappers)) p'
    /\ map elementKey wrappers = [Some "tags_wrapper[0]"; Some "tags_wrapper[1]"]
    /\ map elementId wrappers = [Some "tags"; Some "tags"]
    /\ map (fun i => pathToString [Name "tags"; Index i]) [0; 1]
       = ["tags[0]"; "tags[1]"].
Proof. eexists _, _, _, _. repeat split; vm_compute; reflexivity. Qed.

(** * Further properties of the visitor *)

(** X1: the visitor assigns four fields of the context and no other:
    whether [visit] returns or throws, the document, the model, the
    flags, the registry of selectors and the callbacks are the ones it was
    given. *)
Theorem visit_keeps_configuration `{Utilities} `{Libraries}
  (fuel : nat) (thing : Thing) (p p' : TraversalContext) :
  finalParameters (visit fuel thing p) = Some p' ->
  configuration p' = configuration p.
Proof.
  apply (framed_final (fun q q' => configuration q' = configuration q)).
  apply visit_framed; try done. intros q r s Hq Hr. congruence.
Qed.

Lemma visit_keeps_configuration_witness :
  exists p',
    finalParameters
      (visit 3 (AClassDeclaration Sample.monetaryAmount)
         (setHideIdentifiers true
            (Sample.parameters Sample.order Sample.model))) = Some p'
    /\ configuration p'
       = configuration
           (setHideIdentifiers true
              (Sample.parameters Sample.order Sample.model)).
Proof.
  eexists. split; [vm_compute; reflexivity|].
  apply (visit_keeps_configuration 3 (AClassDeclaration Sample.monetaryAmount)).
  vm_compute. reflexivity.
Defined.

(** X2: an exception leaves the path stack unbalanced.  When [visitField]
    or [visitRelationship] throws, the name it pushed is still on the
    stack, above the stack of entry: no pop runs on the way out. *)
Theorem exception_leaves_name_on_stack `{Utilities} `{Libraries}
  (fuel : nat) (property : Property.t) (p p' : TraversalContext) (e : Error) :
  visitField (visit fuel) property p = Threw e p'
  \/ visitRelationship property p = Threw e p' ->
  (stack p ++ [Name (Property.getName property)])%list `prefix_of` stack p'
  /\ stack p' <> stack p.
Proof.
  intros Hv.
  assert (Hp : (stack p ++ [Name (Property.getName property)])%list
                 `prefix_of` stack p').
  { destruct Hv as [Hv|Hv].
    - assert (Hs : wp (visitField (visit fuel) property)
                     (fun _ q => stack q = stack p /\ True)
                     (fun _ q =>
                        (stack p ++ [Name (Property.getName property)])%list
                          `prefix_of` stack q /\ True) True p).
      { apply (visitField_framed_strict (fun _ _ => True)); try done.
        intros thing q. by apply (visit_framed (fun _ _ => True)). }
      unfold wp in Hs. rewrite Hv in Hs. by destruct Hs.
    - assert (Hs : wp (visitRelationship property)
                     (fun _ q => stack q = stack p /\ True)
                     (fun _ q =>
                        (stack p ++ [Name (Property.getName property)])%list
                          `prefix_of` stack q /\ True) True p).
      { by apply (visitRelationship_framed_strict (fun _ _ => True)). }
      unfold wp in Hs. rewrite Hv in Hs. by destruct Hs. }
  split; [done|]. intros Heq. rewrite Heq in Hp.
  by apply prefix_snoc_not in Hp.
Qed.

Lemma exception_leaves_name_on_stack_witness :
  exists e p',
    visitField (visit 0) Sample.currency
      (Sample.parameters Sample.order Sample.model) = Threw e p'
    /\ stack p' <> stack (Sample.parameters Sample.order Sample.model).
Proof.
  eexists _, _. split; [vm_compute; reflexivity|].
  refine (proj2 (exception_leaves_name_on_stack 0 Sample.currency
                   (Sample.parameters Sample.order Sample.model) _ _ _)).
  left. vm_compute. reflexivity.
Defined.

(** X3: whatever [visit] throws, at whatever depth, the stack it leaves
    behind starts with the stack of entry: what is above it is the path
    to the node that failed. *)
Theorem exception_keeps_entry_stack `{Utilities} `{Libraries}
  (fuel : nat) (thing : Thing) (p p' : TraversalContext) (e : Error) :
  visit fuel thing p = Threw e p' -> stack p `prefix_of` stack p'.
Proof.
  intros Hv.
  pose proof (visit_framed (fun _ _ => True) (fun _ => I)
                (fun _ _ _ _ _ => I) (fun _ _ => I) (fun _ _ => I)
                (fun _ _ => I) (fun _ _ _ => I) fuel thing p) as Hs.
  unfold framed, wp in Hs. rewrite Hv in Hs. by destruct Hs.
Qed.

Lemma exception_keeps_entry_stack_witness :
  exists e p',
    visit 2 (AClassDeclaration Sample.invoice)
      (setStack [Name "invoice"] (Sample.parameters Sample.order Sample.model))
    = Threw e p'
    /\ [Name "invoice"] `prefix_of` stack p'.
Proof.
  eexists _, _. split; [vm_compute; reflexivity|].
  apply (exception_keeps_entry_stack 2 (AClassDeclaration Sample.invoice)
           (setStack [Name "invoice"]
              (Sample.parameters Sample.order Sample.model)) _
           (CustomSelectorKeyNotFound "currencies")).
  vm_compute. reflexivity.
Defined.

(** X4: the hidden-fields array only grows at its end: whether [visit]
    returns or throws, the names it held at entry are the first names it
    holds at exit. *)
Theorem hidden_names_append_only `{Utilities} `{Libraries}
  (fuel : nat) (thing : Thing) (p p' : TraversalContext) :
  finalParameters (visit fuel thing p) = Some p' ->
  hiddenNames p `prefix_of` hiddenNames p'.
Proof.
  apply (framed_final (fun q q' => hiddenNames q `prefix_of` hiddenNames q')).
  apply visit_framed; try done.
  - intros q r s Hq Hr. by etrans.
  - intros l q _. unfold hiddenNames at 2. simpl. by apply prefix_app_r.
Qed.

Lemma hidden_names_append_only_witness :
  exists p',
    finalParameters
      (visit 2 (AClassDeclaration Sample.invoice)
         (setHiddenFields (Some ["org.example.Order.note"])
            (setHideIdentifiers true
               (Sample.parameters Sample.order Sample.model)))) = Some p'
    /\ ["org.example.Order.note"] `prefix_of` hiddenNames p'.
Proof.
  eexists. split; [vm_compute; reflexivity|].
  apply (hidden_names_append_only 2 (AClassDeclaration Sample.invoice)
           (setHiddenFields (Some ["org.example.Order.note"])
              (setHideIdentifiers true
                 (Sample.parameters Sample.order Sample.model)))).
  vm_compute. reflexivity.
Defined.

(** X5: without [hideIdentifiers] the visitor never touches
    [hiddenFields]: it is at exit what it was at entry, [undefined]
    included, whether [visit] returns or throws. *)
Theorem hiddenFields_untouched `{Utilities} `{Libraries}
  (fuel : nat) (thing : Thing) (p p' : TraversalContext) :
  hideIdentifiers p = false ->
  finalParameters (visit fuel thing p) = Some p' ->
  hiddenFields p' = hiddenFields p.
Proof.
  intros Hh Hf.
  apply (framed_final
           (fun q q' => hideIdentifiers q' = hideIdentifiers q
                        /\ (hideIdentifiers q = false ->
                            hiddenFields q' = hiddenFields q))) in Hf;
    [by apply Hf|].
  apply visit_framed; try done.
  - intros q r s [Hq1 Hq2] [Hr1 Hr2]. split; [congruence|].
    intros Hq. rewrite Hr2, Hq2; congruence.
  - intros l q Hq. split; [done|]. simpl. congruence.
Qed.

Lemma hiddenFields_untouched_witness :
  exists p',
    finalParameters
      (visit 2 (AClassDeclaration Sample.invoice)
         (Sample.parameters Sample.order Sample.model)) = Some p'
    /\ hiddenFields p' = None.
Proof.
  eexists. split; [vm_compute; reflexivity|].
  apply (hiddenFields_untouched 2 (AClassDeclaration Sample.invoice)
           (Sample.parameters Sample.order Sample.model));
    vm_compute; reflexivity.
Defined.

(** ** Null results *)

Lemma visitSingletonField_not_null `{Utilities} `{Libraries}
  accept field props p :
  wp (visitSingletonField accept field props)
     (fun e _ => e <> Null) (fun _ _ => True) True p.
Proof.
  unfold visitSingletonField. apply wp_bind, wp_getParameters.
  destruct (Property.isPrimitive field).
  - destruct (String.eqb _ "Boolean"); [by apply wp_ret|].
    destruct (String.eqb _ "datetime-local"); [by apply wp_ret|].
    destruct (truthyString _) as [key|]; [|by apply wp_ret].
    by destruct (selectorOptions p key);
      [apply wp_ret | apply wp_throw | apply wp_throw].
  - destruct (modelManager p !! _) as [declared|]; [|by apply wp_throw].
    destruct (findConcreteSubclass _ declared) as [message|type];
      [by apply wp_throw|].
    apply wp_bind. unfold wp at 1.
    by destruct (accept (thingOfDeclaration type) p).
Qed.

Lemma wp_ignore {A : Type} (m : Visit A) p :
  wp m (fun _ _ => True) (fun _ _ => True) True p.
Proof. unfold wp. by destruct (m p). Qed.

(** X6: [null] means hidden.  When [visitField] or [visitRelationship]
    returns [null], the property is hidden, by the hidden-fields set or by
    policy, and the context is exactly the one of entry: a property that
    is not hidden never renders as [null]. *)
Theorem null_only_when_hidden `{Utilities} `{Libraries}
  (accept : Thing -> Visit Element) (property : Property.t)
  (p p' : TraversalContext) :
  visitField accept property p = Returned Null p'
  \/ visitRelationship property p = Returned Null p' ->
  hideProperty property p || isHidden property = true /\ p' = p.
Proof.
  intros Hv.
  destruct (hideProperty property p || isHidden property) eqn:Hh.
  { split; [done|].
    unfold visitField, visitRelationship in Hv.
    rewrite !bind_run in Hv. unfold getParameters in Hv.
    rewrite Hh in Hv. unfold mret, Visit_ret in Hv.
    by destruct Hv as [[= <-]|[= <-]]. }
  exfalso. destruct Hv as [Hv|Hv].
  - assert (Hs : wp (visitField accept property)
                   (fun e _ => e <> Null) (fun _ _ => True) True p).
    { unfold visitField. apply wp_bind, wp_getParameters. rewrite Hh.
      apply wp_bind, wp_modify, wp_bind, wp_getParameters, wp_bind.
      destruct (Property.isArray property).
      - apply wp_bind. eapply wp_mono; [apply wp_ignore | | done..].
        intros children q _. by apply wp_ret, wp_bind, wp_modify, wp_ret.
      - eapply wp_mono; [apply visitSingletonField_not_null | | done..].
        intros e q He. by apply wp_bind, wp_modify, wp_ret. }
    unfold wp in Hs. by rewrite Hv in Hs.
  - assert (Hs : wp (visitRelationship property)
                   (fun e _ => e <> Null) (fun _ _ => True) True p).
    { unfold visitRelationship. apply wp_bind, wp_getParameters. rewrite Hh.
      apply wp_bind, wp_modify, wp_bind, wp_getParameters, wp_bind.
      destruct (Property.isArray property);
        [|by apply wp_ret, wp_bind, wp_modify, wp_ret].
      destruct (newResource _ _ _ _ _ _) as [message|resource];
        [by apply wp_throw|].
      apply wp_bind. eapply wp_mono; [apply wp_ignore | | done..].
      intros children q _. by apply wp_ret, wp_bind, wp_modify, wp_ret. }
    unfold wp in Hs. by rewrite Hv in Hs.
Qed.

Lemma null_only_when_hidden_witness :
  hideProperty Sample.secret (Sample.parameters Sample.order Sample.model)
  || isHidden Sample.secret = true
  /\ Sample.parameters Sample.order Sample.model
     = Sample.parameters Sample.order Sample.model.
Proof.
  apply (null_only_when_hidden (visit 0) Sample.secret).
  left. vm_compute. reflexivity.
Defined.



(** ** Primitive fields *)

(** X8: the singleton widget of a primitive field.  The visit ends and
    never touches the context.  It throws exactly when the field is neither
    Boolean nor a date-time, its selector key is a non-empty string and the
    registry has no entry of its own for the key: the error is then the
    configuration error that names the key, or, for a key that names a
    member every object inherits, the [TypeError] of [options.map].  In
    every other case a widget is returned, whose id is the path string of
    the stack: a Boolean or date-time field never consults the registry. *)
Theorem primitive_singleton `{Utilities} `{Libraries}
  (accept : Thing -> Visit Element) (field : Property.t) (props : CommonProps)
  (p : TraversalContext) :
  Property.isPrimitive field = true ->
  let outcome := visitSingletonField accept field props p in
  let unregistered key :=
    Property.getType field <> "Boolean"
    /\ toFieldType (Property.getType field) <> "datetime-local"
    /\ getCustomSelectDecoratorKey field = Some key
    /\ key <> ""
    /\ ownSelectors p !! key = None in
  let error key :=
    if inherited key then TypeError "options.map is not a function"
    else CustomSelectorKeyNotFound key in
  ((exists e,
      outcome = Returned e p /\ elementId e = Some (pathToString (stack p)))
   \/ (exists key, unregistered key /\ outcome = Threw (error key) p))
  /\ (forall key, unregistered key -> outcome = Threw (error key) p)
  /\ ((exists e p', outcome = Returned e p') <-> ~ exists key, unregistered key).
Proof.
  intros Hp outcome unregistered error.
  assert (Hthrow : forall key, unregistered key ->
                     outcome = Threw (error key) p).
  { intros key (Hb & Hd & Hk & Hne & Ho). subst outcome error.
    unfold visitSingletonField. rewrite bind_run. unfold getParameters.
    apply String.eqb_neq in Hb, Hd.
    rewrite Hp, Hb, Hd, Hk, (truthyString_Some key Hne).
    unfold selectorOptions. rewrite Ho. by destruct (inherited key). }
  assert (Hcases :
    (exists e,
       outcome = Returned e p /\ elementId e = Some (pathToString (stack p)))
    \/ (exists key, unregistered key)).
  { subst outcome unregistered.
    unfold visitSingletonField. rewrite bind_run.
    unfold getParameters. rewrite Hp.
    destruct (String.eqb _ "Boolean") eqn:Hb; [left; by eexists|].
    destruct (String.eqb _ "datetime-local") eqn:Hd; [left; by eexists|].
    destruct (getCustomSelectDecoratorKey field) as [key|] eqn:Hk;
      [|left; by eexists].
    simpl. destruct (String.eqb key "") eqn:He; [left; by eexists|].
    unfold selectorOptions.
    destruct (ownSelectors p !! key) eqn:Ho; [left; by eexists|].
    right. exists key. apply String.eqb_neq in Hb, Hd, He. by repeat split. }
  split; [|split; [exact Hthrow|]].
  - destruct Hcases as [Hr|[key Hu]]; [by left|].
    right. exists key. split; [done | by apply Hthrow].
  - split.
    + intros (e & p' & Hr) [key Hu]. rewrite (Hthrow key Hu) in Hr. done.
    + intros Hn. destruct Hcases as [(e & Hr & _)|Hu]; [by eexists _, _|done].
Qed.

Lemma primitive_singleton_witness :
  (let p := setStack [Name "paid"]
              (Sample.parameters Sample.order Sample.model) in
   exists e,
     visitSingletonField (visit 0) Sample.paid (Sample.props Sample.paid) p
     = Returned e p
     /\ elementId e = Some "paid")
  /\ (let p := setStack [Name "currency"]
                 (Sample.parameters Sample.order Sample.model) in
      visitSingletonField (visit 0) Sample.currency
        (Sample.props Sample.currency) p
      = Threw (CustomSelectorKeyNotFound "currencies") p)
  /\ (let p := setStack [Name "kind"]
                 (Sample.parameters Sample.order Sample.model) in
      visitSingletonField (visit 0) Sample.kind (Sample.props Sample.kind) p
      = Threw (TypeError "options.map is not a function") p).
Proof.
  split; [|split].
  - intros p.
    destruct (primitive_singleton (visit 0) Sample.paid
                (Sample.props Sample.paid) p eq_refl)
      as ([(e & Hr & Hid)|(key & (Hb & _) & _)] & _); [|done].
    exists e. split; [exact Hr|]. exact Hid.
  - intros p.
    refine (proj1 (proj2 (primitive_singleton (visit 0) Sample.currency
                            (Sample.props Sample.currency) p eq_refl))
              "currencies" _).
    repeat split; done.
  - intros p.
    refine (proj1 (proj2 (primitive_singleton (visit 0) Sample.kind
                            (Sample.props Sample.kind) p eq_refl))
              "constructor" _).
    repeat split; done.
Defined.

Lemma visitSingletonField_primitive_leaf `{Utilities} `{Libraries}
  accept accept' field props p :
  Property.isPrimitive field = true ->
  visitSingletonField accept field props p
  = visitSingletonField accept' field props p.
Proof.
  intros Hp. unfold visitSingletonField. rewrite !bind_run.
  unfold getParameters. by rewrite Hp.
Qed.

Lemma mapWithIndex_ext {A B : Type} (f g : A -> nat -> Visit B) l :
  (forall x i q, f x i q = g x i q) ->
  forall i q, mapWithIndex f i l q = mapWithIndex g i l q.
Proof.
  intros Hfg. induction l as [|x l IH]; intros i q; simpl; [done|].
  rewrite !bind_run, Hfg. destruct (g x i q) as [b q'| |]; [|done..].
  by rewrite !bind_run, IH.
Qed.

Lemma mapValue_ext value (f g : Json -> nat -> Visit Element) q :
  (forall x i r, f x i r = g x i r) -> mapValue value f q = mapValue value g q.
Proof.
  intros Hfg. unfold mapValue. destruct (truthy value); [|done].
  destruct value as [[| | | |items|]|]; try done.
  by rewrite !bind_run, (mapWithIndex_ext f g).
Qed.

Lemma bind_ext {A B : Type} (m : Visit A) (k k' : A -> Visit B) p :
  (forall a q, k a q = k' a q) -> (m ≫= k) p = (m ≫= k') p.
Proof. intros Hk. rewrite !bind_run. by destruct (m p). Qed.

Lemma bind_ext_l {A B : Type} (m m' : Visit A) (k : A -> Visit B) p :
  m p = m' p -> (m ≫= k) p = (m' ≫= k) p.
Proof. intros Hm. by rewrite !bind_run, Hm. Qed.

Lemma visitField_primitive_leaf `{Utilities} `{Libraries}
  accept accept' field p :
  Property.isPrimitive field = true ->
  visitField accept field p = visitField accept' field p.
Proof.
  intros Hp. unfold visitField. apply bind_ext. intros entry q.
  destruct (hideProperty field entry || isHidden field); [done|].
  apply bind_ext. intros [] q1. apply bind_ext. intros parameters q2.
  apply bind_ext_l. destruct (Property.isArray field).
  - apply bind_ext_l, mapValue_ext. intros x i r.
    apply bind_ext. intros [] r1. apply bind_ext_l.
    by apply visitSingletonField_primitive_leaf.
  - by apply visitSingletonField_primitive_leaf.
Qed.

(** X9: a primitive field is a leaf of the traversal.  Its visit makes no
    nested visit: it ends at every recursion depth, with the outcome it
    has at depth one, also in a schema with cycles. *)
Theorem primitive_field_leaf `{Utilities} `{Libraries}
  (fuel : nat) (field : Property.t) (p : TraversalContext) :
  Property.isPrimitive field = true ->
  visit (S fuel) (AField field) p = visit 1 (AField field) p
  /\ terminates (visit 1 (AField field) p).
Proof.
  intros Hp. split.
  - rewrite !visit_S, !visitWith_run.
    by apply visitField_primitive_leaf.
  - apply (runsAt_terminates (modelManager p)). rewrite visit_S.
    apply visitWith_runs; [done|]. intros q Hq.
    apply visitField_runs; [|done]. intros declared type q' Hn. congruence.
Qed.

Lemma primitive_field_leaf_witness :
  visit 5 (AField Sample.tags) (Sample.parameters Sample.order Sample.shapes)
  = visit 1 (AField Sample.tags) (Sample.parameters Sample.order Sample.shapes)
  /\ terminates
       (visit 1 (AField Sample.tags)
          (Sample.parameters Sample.order Sample.shapes)).
Proof.
  apply (primitive_field_leaf 4 Sample.tags
           (Sample.parameters Sample.order Sample.shapes)).
  reflexivity.
Defined.

(** ** Relationships *)



(** ** Array fields whose document value is not an array *)

Lemma visitField_array_run `{Utilities} `{Libraries} accept field p :
  hideProperty field p || isHidden field = false ->
  Property.isArray field = true ->
  let q := setStack (stack p ++ [Name (Property.getName field)]) p in
  let key := pathToString (stack q) in
  let value := get (json p) key in
  let commonProps :=
    {| propsSkipLabel := skipLabel p || true;
       propsId := key;
       propsField := Field field;
       propsValue := value;
       propsType := toFieldType (Property.getType field);
       propsRequired := negb (Property.isOptional field);
       propsReadOnly := disabled p;
       propsTextOnly := textOnly p;
       propsAddElement := addElement p;
       propsRemoveElement := removeElement p;
       propsOnFieldValueChange := onFieldValueChange p;
       propsRelationshipProvider := None |} in
  visitField accept field p =
  match
    mapValue value
      (fun _ index =>
         push (Index index);;
         child ← visitSingletonField accept field commonProps;
         pop;;
         mret (ConcertoArrayElement
                 (Property.getName field +:+ "_wrapper["
                    +:+ numberToString index +:+ "]")
                 commonProps index child)) q
  with
  | Returned children q' =>
      Returned
        (ConcertoArray (Property.getName field +:+ "_wrapper") commonProps
           (AddDefaultValue (addElement p) field) children)
        (setStack (removelast (stack q')) q')
  | Threw e q' => Threw e q'
  | OutOfFuel => OutOfFuel
  end.
Proof.
  intros Hh Ha q key value commonProps. unfold visitField.
  rewrite bind_run. unfold getParameters at 1. cbv beta iota. rewrite Hh.
  rewrite bind_run. unfold push at 1, modify at 1. cbv beta iota.
  rewrite bind_run. unfold getParameters at 1. cbv beta iota.
  rewrite Ha, !bind_run. cbn [json setStack]. fold q key value commonProps.
  by destruct (mapValue _ _ q).
Qed.

(** X11: an array field without a value.  When the document holds
    nothing, or a falsy value, at the path of an array-valued field that is
    not hidden, the field renders as an array container without children,
    label skipped, with its add affordance, and the context comes back
    exactly as it was: a missing array is no error. *)
Theorem array_without_value `{Utilities} `{Libraries}
  (accept : Thing -> Visit Element) (field : Property.t)
  (p : TraversalContext) :
  let key := pathToString (stack p ++ [Name (Property.getName field)]) in
  hideProperty field p || isHidden field = false ->
  Property.isArray field = true ->
  truthy (get (json p) key) = false ->
  exists props,
    visitField accept field p =
      Returned
        (ConcertoArray (Property.getName field +:+ "_wrapper") props
           (AddDefaultValue (addElement p) field) None) p
    /\ propsId props = key
    /\ propsValue props = get (json p) key
    /\ propsSkipLabel props = true.
Proof.
  intros key Hh Ha Hv. rewrite (visitField_array_run accept field p Hh Ha).
  cbn [stack setStack]. fold key. unfold mapValue. rewrite Hv.
  unfold mret, Visit_ret. cbn [stack setStack]. rewrite removelast_snoc.
  eexists. split; [f_equal; by destruct p|]. cbn. by rewrite orb_true_r.
Qed.

Lemma array_without_value_witness :
  exists props,
    visitField (visit 0)
      (Sample.primitive "org.example.Order" "labels" "String" true)
      (Sample.parameters Sample.order Sample.model)
    = Returned
        (ConcertoArray "labels_wrapper" props
           (AddDefaultValue (Handler "addElement")
              (Sample.primitive "org.example.Order" "labels" "String" true))
           None)
        (Sample.parameters Sample.order Sample.model)
    /\ propsValue props = None.
Proof.
  destruct (array_without_value (visit 0)
              (Sample.primitive "org.example.Order" "labels" "String" true)
              (Sample.parameters Sample.order Sample.model))
    as (props & Hv & _ & Hp & _); [reflexivity..|].
  exists props. split; [exact Hv|]. rewrite Hp. reflexivity.
Defined.

(** X12: an array field whose value is not an array.  When the document
    holds a truthy value that is not an array at the path of an
    array-valued field that is not hidden, [value.map] is not a function:
    the visit throws a [TypeError], and the name of the field stays on the
    path stack. *)
Theorem array_of_non_array `{Utilities} `{Libraries}
  (accept : Thing -> Visit Element) (field : Property.t)
  (p : TraversalContext) :
  let path := (stack p ++ [Name (Property.getName field)])%list in
  hideProperty field p || isHidden field = false ->
  Property.isArray field = true ->
  truthy (get (json p) (pathToString path)) = true ->
  (forall items, get (json p) (pathToString path) <> Some (JArray items)) ->
  visitField accept field p
  = Threw (TypeError "value.map is not a function") (setStack path p).
Proof.
  intros path Hh Ha Hv Hn. rewrite (visitField_array_run accept field p Hh Ha).
  cbn [stack setStack]. fold path. unfold mapValue. rewrite Hv.
  destruct (get (json p) (pathToString path)) as [[| | | |items|]|];
    try done.
  by destruct (Hn items).
Qed.

Lemma array_of_non_array_witness :
  visitField (visit 0)
    (Sample.primitive "org.example.Order" "note" "String" true)
    (Sample.parameters Sample.order Sample.model)
  = Threw (TypeError "value.map is not a function")
      (setStack [Name "note"] (Sample.parameters Sample.order Sample.model)).
Proof.
  apply (array_of_non_array (visit 0)
           (Sample.primitive "org.example.Order" "note" "String" true)
           (Sample.parameters Sample.order Sample.model));
    [reflexivity.. | done].
Defined.

(** ** Composite classes *)

(** X13: a composite needs its properties.  The amount and the duration
    are rendered from the first two declared properties, the party from the
    first one: with fewer declared, the visit cannot return; and with none
    declared it throws a [TypeError] at once and leaves the skip-label flag
    set, since the assignment that clears it is not reached. *)
Theorem composite_too_few_properties
  (accept : Thing -> Visit Element) (declaration : ClassDeclaration.t)
  (p : TraversalContext) :
  length (ClassDeclaration.getProperties declaration) < 2 ->
  (forall e p',
     visitMonetaryAmount accept declaration p <> Returned e p'
     /\ visitDuration accept declaration p <> Returned e p')
  /\ (ClassDeclaration.getProperties declaration = [] ->
      let error :=
        TypeError "Cannot read properties of undefined (reading 'accept')" in
      visitMonetaryAmount accept declaration p
        = Threw error (setSkipLabel true p)
      /\ visitDuration accept declaration p = Threw error (setSkipLabel true p)
      /\ visitAccordParty accept declaration p
         = Threw error (setSkipLabel true p)).
Proof.
  intros Hlen. unfold visitMonetaryAmount, visitDuration, visitAccordParty.
  split.
  - intros e p'. split; rewrite bind_run; unfold modify at 1; cbv beta iota;
      rewrite bind_run;
      (destruct (acceptMember accept _ 0 (setSkipLabel true p)) as [e0 q| |];
         [|done..]);
      rewrite bind_run; unfold acceptMember;
      (destruct (ClassDeclaration.getProperties declaration)
         as [|m0 [|m1 rest]]; simpl in *; [done | done | lia]).
  - intros Hp. rewrite Hp, !bind_run. by unfold modify.
Qed.

Lemma composite_too_few_properties_witness :
  visitMonetaryAmount (visit 0) Sample.customer
    (Sample.parameters Sample.order Sample.model)
  = Threw (TypeError "Cannot read properties of undefined (reading 'accept')")
      (setSkipLabel true (Sample.parameters Sample.order Sample.model)).
Proof.
  refine (proj1 (proj2 (composite_too_few_properties (visit 0) Sample.customer
                          (Sample.parameters Sample.order Sample.model) _)
                   eq_refl)).
  simpl. lia.
Defined.


(** ** What the loops return *)

Lemma mapWithIndex_elements {A B : Type} (f : A -> nat -> Visit B)
  (I : TraversalContext -> Prop) (P : nat -> A -> B -> Prop) (l : list A) :
  (forall x i q b q', I q -> f x i q = Returned b q' -> I q' /\ P i x b) ->
  forall i q bs q',
    I q -> mapWithIndex f i l q = Returned bs q' ->
    I q' /\ length bs = length l
    /\ forall k b, bs !! k = Some b ->
         exists x, l !! k = Some x /\ P (i + k) x b.
Proof.
  intros Hf. induction l as [|x l IH]; intros i q bs q' Hq Hm; simpl in Hm.
  - injection Hm as <- <-. repeat split; [done|]. intros k b Hk. by destruct k.
  - rewrite bind_run in Hm. destruct (f x i q) as [b q1| |] eqn:Hb; [|done..].
    rewrite bind_run in Hm.
    destruct (mapWithIndex f (S i) l q1) as [bs' q2| |] eqn:Hbs; [|done..].
    injection Hm as <- <-.
    destruct (Hf x i q b q1 Hq Hb) as [Hq1 HP].
    destruct (IH (S i) q1 bs' q2 Hq1 Hbs) as (Hq2 & Hlen & Hall).
    repeat split; [done | simpl; by rewrite Hlen |].
    intros [|k] c Hc; simpl in Hc.
    + injection Hc as <-. exists x. by rewrite Nat.add_0_r.
    + destruct (Hall k c Hc) as (y & Hy & HPy). exists y.
      split; [done|]. by replace (i + S k) with (S i + k) by lia.
Qed.

Lemma visitSingletonField_primitive_run `{Utilities} `{Libraries}
  accept field props p e p' :
  Property.isPrimitive field = true ->
  visitSingletonField accept field props p = Returned e p' ->
  let key := pathToString (stack p) in
  p' = p
  /\ elementId e = Some key
  /\ forall props',
       elementProps e = Some props' ->
       props' = withIdValue props key (get (json p) key).
Proof.
  intros Hp. unfold visitSingletonField. rewrite bind_run.
  unfold getParameters. rewrite Hp.
  destruct (String.eqb _ "Boolean");
    [intros [= <- <-]; repeat split; by intros ? [= <-]|].
  destruct (String.eqb _ "datetime-local");
    [intros [= <- <-]; repeat split; by intros ? [= <-]|].
  destruct (truthyString _) as [key|];
    [|intros [= <- <-]; repeat split; by intros ? [= <-]].
  destruct (selectorOptions p key); [|done|done].
  intros [= <- <-]. by repeat split.
Qed.

(** X14: the widgets of a primitive array.  When an array-valued
    primitive field that is not hidden returns, over a document array of N
    entries, the container holds N wrappers, and the widget inside the
    wrapper of entry [i] is identified by the path of the field followed by
    [i]; where it takes the common props, its value is the document value
    at that path. *)
Theorem array_elements_ids `{Utilities} `{Libraries}
  (accept : Thing -> Visit Element) (field : Property.t)
  (p p' : TraversalContext) (items : list Json) (component : Element) :
  let path := (stack p ++ [Name (Property.getName field)])%list in
  hideProperty field p || isHidden field = false ->
  Property.isArray field = true ->
  Property.isPrimitive field = true ->
  get (json p) (pathToString path) = Some (JArray items) ->
  visitField accept field p = Returned component p' ->
  exists props wrappers,
    component =
      ConcertoArray (Property.getName field +:+ "_wrapper") props
        (AddDefaultValue (addElement p) field) (Some wrappers)
    /\ length wrappers = length items
    /\ forall i wrapper, wrappers !! i = Some wrapper ->
         let key := pathToString (path ++ [Index i]) in
         exists child key',
           wrapper = ConcertoArrayElement key' props i child
           /\ elementId child = Some key
           /\ forall props',
                elementProps child = Some props' ->
                propsValue props' = get (json p) key.
Proof.
  intros path Hh Ha Hp Hv. rewrite (visitField_array_run accept field p Hh Ha).
  cbn [stack setStack]. fold path. rewrite Hv. unfold mapValue. cbn [truthy].
  set (props := {| propsSkipLabel := skipLabel p || true |}).
  set (callback := fun (_ : Json) (index : nat) => (push (Index index) ≫= _)).
  rewrite bind_run.
  destruct (mapWithIndex callback 0 items (setStack path p))
    as [wrappers q| |] eqn:Hm; [|done..].
  unfold mret, Visit_ret. intros [= <- <-]. exists props, wrappers.
  split; [done|].
  destruct (mapWithIndex_elements callback
              (fun q => q = setStack path p)
              (fun i (_ : Json) wrapper =>
                 exists child key',
                   wrapper = ConcertoArrayElement key' props i child
                   /\ elementId child = Some (pathToString (path ++ [Index i]))
                   /\ forall props',
                        elementProps child = Some props' ->
                        propsValue props'
                        = get (json p) (pathToString (path ++ [Index i])))
              items) with 0 (setStack path p) wrappers q
    as (_ & Hlen & Hall); [|done|done|].
  - intros x i r b r' -> Hb. subst callback. cbv beta in Hb.
    rewrite bind_run in Hb. unfold push at 1, modify at 1 in Hb.
    cbv beta iota in Hb. rewrite bind_run in Hb.
    destruct (visitSingletonField accept field props _) as [child r1| |] eqn:Hc;
      [|done..].
    apply visitSingletonField_primitive_run in Hc as (-> & Hid & Hprops);
      [|done].
    rewrite bind_run in Hb. unfold pop, modify, mret, Visit_ret in Hb.
    injection Hb as <- <-. cbn [stack setStack] in *. split.
    + by rewrite removelast_snoc.
    + eexists _, _. split; [reflexivity|]. split; [done|].
      intros props' Hp'. by rewrite (Hprops props' Hp').
  - split; [done|]. intros i wrapper Hw.
    destruct (Hall i wrapper Hw) as (x & _ & child & key' & -> & Hid & Hval).
    by exists child, key'.
Qed.

Lemma array_elements_ids_witness :
  exists component p',
    visitField (visit 0) Sample.tags
      (Sample.parameters Sample.order Sample.model) = Returned component p'
    /\ exists props wrappers,
         component =
           ConcertoArray "tags_wrapper" props
             (AddDefaultValue (Handler "addElement") Sample.tags)
             (Some wrappers)
         /\ length wrappers = 2.
Proof.
  eexists _, _. split; [vm_compute; reflexivity|].
  pose proof (array_elements_ids (visit 0) Sample.tags
                (Sample.parameters Sample.order Sample.model)) as Hx.
  edestruct Hx as (props & wrappers & Hc & Hlen & _);
    [reflexivity | reflexivity | reflexivity | reflexivity
    | vm_compute; reflexivity |].
  exists props, wrappers. split; [exact Hc | exact Hlen].
Defined.

Lemma primitive_scalar_field_visit `{Utilities} `{Libraries}
  fuel field q e q' :
  Property.isPrimitive field = true ->
  Property.isArray field = false ->
  visit (S fuel) (AField field) q = Returned e q' ->
  q' = withFileWriter q
  /\ forall props',
       elementProps e = Some props' -> propsSkipLabel props' = skipLabel q.
Proof.
  intros Hp Ha. rewrite visit_S, visitWith_run.
  assert (Hskip : skipLabel (withFileWriter q) = skipLabel q).
  { unfold withFileWriter. by destruct (fileWriter q). }
  rewrite <-Hskip. generalize (withFileWriter q). clear Hskip q. intros q.
  unfold visitField. rewrite bind_run. unfold getParameters at 1.
  cbv beta iota.
  destruct (hideProperty field q || isHidden field);
    [by intros [= <- <-]|].
  rewrite bind_run. unfold push at 1, modify at 1. cbv beta iota.
  rewrite bind_run. unfold getParameters at 1. cbv beta iota.
  rewrite Ha, bind_run.
  destruct (visitSingletonField _ field _ _) as [child r| |] eqn:Hc; [|done..].
  apply visitSingletonField_primitive_run in Hc as (-> & _ & Hprops); [|done].
  rewrite bind_run. unfold pop, modify, mret, Visit_ret.
  intros [= <- <-]. cbn [stack setStack]. rewrite removelast_snoc. split.
  - by destruct q.
  - intros props' Hp'. rewrite (Hprops props' Hp'). cbn.
    by rewrite orb_false_r.
Qed.

(** X15: a composite suppresses the labels of its parts.  When the first
    two properties of an amount or a duration are primitive fields that
    are not arrays, each of the two sub-widgets that takes the common props
    has [skipLabel] set, whatever the flag of the context was at entry. *)
Theorem composite_suppresses_labels `{Utilities} `{Libraries}
  (fuel : nat) (declaration : ClassDeclaration.t)
  (field0 field1 : Property.t) (rest : list Member)
  (p p' : TraversalContext) (component : Element) :
  ClassDeclaration.getProperties declaration
    = Field field0 :: Field field1 :: rest ->
  Property.isPrimitive field0 = true -> Property.isArray field0 = false ->
  Property.isPrimitive field1 = true -> Property.isArray field1 = false ->
  visitMonetaryAmount (visit (S fuel)) declaration p = Returned component p'
  \/ visitDuration (visit (S fuel)) declaration p = Returned component p' ->
  exists key first second,
    (component = MonetaryAmount key first second
     \/ component = Duration key first second)
    /\ forall widget props',
         widget = first \/ widget = second ->
         elementProps widget = Some props' ->
         propsSkipLabel props' = true.
Proof.
  intros Hprops Hp0 Ha0 Hp1 Ha1 Hv.
  assert (Hrun : forall wrap : string -> Element -> Element -> Element,
    (modify (setSkipLabel true);;
     first ← acceptMember (visit (S fuel))
               (ClassDeclaration.getProperties declaration) 0;
     second ← acceptMember (visit (S fuel))
                (ClassDeclaration.getProperties declaration) 1;
     modify (setSkipLabel false);;
     mret (wrap (toLowerCase (ClassDeclaration.getName declaration))
             first second)) p = Returned component p' ->
    exists first second,
      component
      = wrap (toLowerCase (ClassDeclaration.getName declaration)) first second
      /\ forall widget props',
           widget = first \/ widget = second ->
           elementProps widget = Some props' ->
           propsSkipLabel props' = true).
  { intros wrap. rewrite Hprops, bind_run. unfold modify at 1.
    cbv beta iota. rewrite bind_run. unfold acceptMember at 1.
    cbn [lookup list_lookup thingOfMember].
    destruct (visit (S fuel) (AField field0) (setSkipLabel true p))
      as [first q1| |] eqn:H0'; [|done..].
    apply primitive_scalar_field_visit in H0' as [-> Hfirst]; [|done..].
    rewrite bind_run. unfold acceptMember at 1.
    cbn [lookup list_lookup thingOfMember].
    destruct (visit (S fuel) (AField field1) _) as [second q2| |] eqn:H1';
      [|done..].
    apply primitive_scalar_field_visit in H1' as [-> Hsecond]; [|done..].
    rewrite bind_run. unfold modify, mret, Visit_ret. intros [= <- <-].
    exists first, second. split; [done|].
    intros widget props' [->| ->] Hw.
    - by rewrite (Hfirst props' Hw).
    - rewrite (Hsecond props' Hw). unfold withFileWriter.
      by destruct (fileWriter (setSkipLabel true p)). }
  destruct Hv as [Hv|Hv].
  - destruct (Hrun MonetaryAmount Hv) as (first & second & Hc & Hall).
    exists (toLowerCase (ClassDeclaration.getName declaration)), first, second.
    split; [by left | done].
  - destruct (Hrun Duration Hv) as (first & second & Hc & Hall).
    exists (toLowerCase (ClassDeclaration.getName declaration)), first, second.
    split; [by right | done].
Qed.

Lemma composite_suppresses_labels_witness :
  exists component p',
    visitMonetaryAmount (visit 1) Sample.monetaryAmount
      (Sample.parameters Sample.order Sample.model) = Returned component p'
    /\ exists key first second,
         (component = MonetaryAmount key first second
          \/ component = Duration key first second)
         /\ forall widget props',
              widget = first \/ widget = second ->
              elementProps widget = Some props' ->
              propsSkipLabel props' = true.
Proof.
  eexists _, _. split; [vm_compute; reflexivity|].
  eapply (composite_suppresses_labels 0 Sample.monetaryAmount
            (Sample.primitive "org.accordproject.money.MonetaryAmount"
               "doubleValue" "Double" false)
            (Sample.primitive "org.accordproject.money.MonetaryAmount"
               "currencyCode" "String" false)
            [] (Sample.parameters Sample.order Sample.model));
    [reflexivity.. |].
  left. vm_compute. reflexivity.
Defined.

(** ** Classes rendered property by property *)

Lemma visitClassDeclaration_default_run accept c p :
  ClassDeclaration.isAbstract c = false ->
  includes monetaryAmountNames (ClassDeclaration.getFullyQualifiedName c) = false ->
  includes durationNames (ClassDeclaration.getFullyQualifiedName c) = false ->
  includes accordPartyNames (ClassDeclaration.getFullyQualifiedName c) = false ->
  visitClassDeclaration accept c p =
  match hideIdentifier c p with
  | Returned _ q =>
      match mapWithIndex (fun m _ => accept (thingOfMember m)) 0
              (ClassDeclaration.getProperties c) q with
      | Returned es q' => Returned (Elements es) q'
      | Threw e q' => Threw e q'
      | OutOfFuel => OutOfFuel
      end
  | Threw e q => Threw e q
  | OutOfFuel => OutOfFuel
  end.
Proof.
  intros Ha Hm Hd Hp. unfold visitClassDeclaration.
  rewrite bind_run. destruct (hideIdentifier c p) as [[] q| |]; [|done..].
  by rewrite Ha, Hm, Hd, Hp, bind_run.
Qed.

Lemma hideIdentifier_stack c p q :
  hideIdentifier c p = Returned tt q -> stack q = stack p.
Proof.
  unfold hideIdentifier. rewrite bind_run. unfold getParameters.
  destruct (hideIdentifiers p); [|by intros [= <-]].
  rewrite bind_run.
  destruct (hiddenFields p); unfold modify, mret, Visit_ret;
    (destruct (truthyString _) as [name|]; [|by intros [= <-]]);
    (destruct (ClassDeclaration.getProperty c name);
       [by intros [= <-] | done]).
Qed.

(** X16: a class that is neither abstract nor one of the three composites
    renders as the sequence of its properties: as many components as
    declared properties, in declaration order, the component at each
    position being what the visit of that property returned, from a context
    whose path stack is the one of entry. *)
Theorem class_renders_each_property `{Utilities} `{Libraries}
  (fuel : nat) (c : ClassDeclaration.t) (p p' : TraversalContext)
  (component : Element) :
  ClassDeclaration.isAbstract c = false ->
  includes monetaryAmountNames (ClassDeclaration.getFullyQualifiedName c) = false ->
  includes durationNames (ClassDeclaration.getFullyQualifiedName c) = false ->
  includes accordPartyNames (ClassDeclaration.getFullyQualifiedName c) = false ->
  visitClassDeclaration (visit fuel) c p = Returned component p' ->
  exists components,
    component = Elements components
    /\ length components = length (ClassDeclaration.getProperties c)
    /\ forall i e, components !! i = Some e ->
         exists member q q',
           ClassDeclaration.getProperties c !! i = Some member
           /\ stack q = stack p
           /\ visit fuel (thingOfMember member) q = Returned e q'.
Proof.
  intros Ha Hm Hd Hp.
  rewrite (visitClassDeclaration_default_run _ c p Ha Hm Hd Hp).
  destruct (hideIdentifier c p) as [[] q0| |] eqn:Hh; [|done..].
  apply hideIdentifier_stack in Hh.
  destruct (mapWithIndex _ 0 _ q0) as [es q1| |] eqn:Hes; [|done..].
  intros [= <- <-]. exists es. split; [done|].
  destruct (mapWithIndex_elements
              (fun m (_ : nat) => visit fuel (thingOfMember m))
              (fun q => stack q = stack p)
              (fun (_ : nat) m e =>
                 exists q q', stack q = stack p
                   /\ visit fuel (thingOfMember m) q = Returned e q')
              (ClassDeclaration.getProperties c)) with 0 q0 es q1
    as (_ & Hlen & Hall); [|done|done|].
  - intros m i q e q' Hq Hv. split; [|by exists q, q'].
    pose proof (visit_sound fuel (thingOfMember m) q) as Hs.
    unfold wp in Hs. rewrite Hv in Hs. destruct Hs as [Hst _]. congruence.
  - split; [done|]. intros i e He.
    destruct (Hall i e He) as (member & Hi & q & q' & Hq & Hv).
    by exists member, q, q'.
Qed.

Lemma class_renders_each_property_witness :
  exists component p',
    visitClassDeclaration (visit 1) Sample.invoice
      (setCustomSelectors (Some Sample.currencies)
         (Sample.parameters Sample.order Sample.model))
    = Returned component p'
    /\ exists components,
         component = Elements components /\ length components = 3.
Proof.
  eexists _, _. split; [vm_compute; reflexivity|].
  pose proof (class_renders_each_property 1 Sample.invoice
                (setCustomSelectors (Some Sample.currencies)
                   (Sample.parameters Sample.order Sample.model))) as Hx.
  edestruct Hx as (components & Hc & Hlen & _);
    [reflexivity | reflexivity | reflexivity | reflexivity
    | vm_compute; reflexivity |].
  exists components. split; [exact Hc | exact Hlen].
Defined.

Lemma hidden_name_kept `{Utilities} `{Libraries} fuel thing q e q' name :
  visit fuel thing q = Returned e q' ->
  name ∈ hiddenNames q -> name ∈ hiddenNames q'.
Proof.
  intros Hv Hn.
  assert (Hp : hiddenNames q `prefix_of` hiddenNames q').
  { apply (framed_final
             (fun r r' => hiddenNames r `prefix_of` hiddenNames r')
             (visit fuel thing)); [|by rewrite Hv].
    apply visit_framed; try done.
    - intros r1 r2 r3 H1 H2. by etrans.
    - intros l r _. unfold hiddenNames at 2. simpl. by apply prefix_app_r. }
  destruct Hp as [k ->]. apply elem_of_app. by left.
Qed.

Lemma hidden_member_visit `{Utilities} `{Libraries} fuel member q e q' :
  Property.getFullyQualifiedName (memberProperty member) ∈ hiddenNames q ->
  visit fuel (thingOfMember member) q = Returned e q' -> e = Null.
Proof.
  intros Hn. destruct fuel as [|fuel]; [done|].
  rewrite visit_S, visitWith_run.
  assert (Hh : hideProperty (memberProperty member) (withFileWriter q) = true).
  { unfold hiddenNames in Hn.
    destruct (hiddenFields q) as [names|] eqn:Eh;
      [|by apply elem_of_nil in Hn].
    apply (hideProperty_elem _ _ names); [|done].
    unfold withFileWriter. by destruct (fileWriter q). }
  destruct member as [f|r]; cbn [thingOfMember memberProperty] in *;
    unfold visitField, visitRelationship; rewrite bind_run;
    unfold getParameters; rewrite Hh; by intros [= <- _].
Qed.

(** X17: hiding the identifier takes effect within the same class.  With
    [hideIdentifiers] set, in the rendering of a class that is neither
    abstract nor a composite, the component of every property that bears
    the qualified name of the identifier field is [null]. *)
Theorem identifier_renders_null `{Utilities} `{Libraries}
  (fuel : nat) (c : ClassDeclaration.t) (idField : Member)
  (p p' : TraversalContext) (component : Element) :
  hideIdentifiers p = true ->
  identifierField c = Some idField ->
  ClassDeclaration.isAbstract c = false ->
  includes monetaryAmountNames (ClassDeclaration.getFullyQualifiedName c) = false ->
  includes durationNames (ClassDeclaration.getFullyQualifiedName c) = false ->
  includes accordPartyNames (ClassDeclaration.getFullyQualifiedName c) = false ->
  visitClassDeclaration (visit fuel) c p = Returned component p' ->
  exists components,
    component = Elements components
    /\ forall i member,
         ClassDeclaration.getProperties c !! i = Some member ->
         Property.getFullyQualifiedName (memberProperty member)
         = Property.getFullyQualifiedName (memberProperty idField) ->
         components !! i = Some Null.
Proof.
  intros Hh Hid Ha Hm Hd Hp.
  rewrite (visitClassDeclaration_default_run _ c p Ha Hm Hd Hp).
  rewrite hideIdentifier_run.
  2: { intros _ name Hn. unfold identifierField in Hid. rewrite Hn in Hid.
       by rewrite Hid. }
  rewrite Hh, Hid.
  set (name := Property.getFullyQualifiedName (memberProperty idField)).
  set (q0 := setHiddenFields _ p).
  destruct (mapWithIndex _ 0 _ q0) as [es q1| |] eqn:Hes; [|done..].
  intros [= <- <-]. exists es. split; [done|].
  destruct (mapWithIndex_elements
              (fun m (_ : nat) => visit fuel (thingOfMember m))
              (fun q => name ∈ hiddenNames q)
              (fun (_ : nat) m e =>
                 Property.getFullyQualifiedName (memberProperty m) = name ->
                 e = Null)
              (ClassDeclaration.getProperties c)) with 0 q0 es q1
    as (_ & Hlen & Hall); [| |done|].
  - intros m i q e q' Hq Hv. split; [by eapply hidden_name_kept|].
    intros Hname. eapply hidden_member_visit; [|done]. by rewrite Hname.
  - subst q0. unfold hiddenNames. simpl. apply elem_of_app. right.
    by apply list_elem_of_singleton.
  - intros i member Hi Hname.
    destruct (lookup_lt_is_Some_2 es i) as [e He].
    { rewrite Hlen. by eapply lookup_lt_Some. }
    destruct (Hall i e He) as (member' & Hi' & HP).
    rewrite Hi in Hi'. injection Hi' as <-. by rewrite He, (HP Hname).
Qed.

Lemma identifier_renders_null_witness :
  exists component p',
    visitClassDeclaration (visit 1) Sample.invoice
      (setHideIdentifiers true
         (setCustomSelectors (Some Sample.currencies)
            (Sample.parameters Sample.order Sample.model)))
    = Returned component p'
    /\ exists components,
         component = Elements components /\ components !! 0 = Some Null.
Proof.
  eexists _, _. split; [vm_compute; reflexivity|].
  pose proof (identifier_renders_null 1 Sample.invoice (Field Sample.number)
                (setHideIdentifiers true
                   (setCustomSelectors (Some Sample.currencies)
                      (Sample.parameters Sample.order Sample.model)))) as Hx.
  edestruct Hx as (components & Hc & Hall);
    [reflexivity | reflexivity | reflexivity | reflexivity | reflexivity
    | reflexivity | vm_compute; reflexivity |].
  exists components. split; [exact Hc|].
  exact (Hall 0 (Field Sample.number) eq_refl eq_refl).
Defined.
